(** * discord-chat-cleaner: a shallow embedding of [discord-chat-cleaner.py]

    The program talks to a remote service, sleeps, logs and raises.  Those
    effects are made explicit: a computation reads the responses the remote
    service will give (the [script], one response per HTTP attempt, in the
    order the attempts are made), and produces a result, the list of
    observable events it caused, and the part of the script it did not use.

    Numbers: Python integers are [Z]; the durations handed to [time.sleep]
    are rationals ([Q]), so that [retry_after / 1000] is an exact quotient. *)

From Stdlib Require Import ZArith QArith List String Ascii Bool Lia.
From Stdlib Require Import DecimalString.
Import ListNotations.

Local Open Scope list_scope.
Local Open Scope string_scope.
Local Open Scope Z_scope.

(** ** Strings *)

(** [str(n)] for an integer. *)
Definition str_of_int (n : Z) : string := NilZero.string_of_int (Z.to_int n).

Definition newline : string := String (ascii_of_nat 10) EmptyString.
Definition dquote : string := String (ascii_of_nat 34) EmptyString.

(** [c.lower()] on an ASCII character, and [s.lower()]. *)
Definition lower_ascii (c : ascii) : ascii :=
  let n := nat_of_ascii c in
  if (Nat.leb 65 n && Nat.leb n 90)%bool then ascii_of_nat (n + 32) else c.

Fixpoint lower (s : string) : string :=
  match s with
  | EmptyString => EmptyString
  | String c s' => String (lower_ascii c) (lower s')
  end.

(** [needle in haystack] for strings. *)
Fixpoint contains (needle haystack : string) : bool :=
  (String.prefix needle haystack ||
   match haystack with
   | EmptyString => false
   | String _ h' => contains needle h'
   end)%bool.

(** ** Data exchanged with the remote service *)

(** One message of a search result.  The program reads [message['id']],
    [message['channel_id']] (both through [int(...)]), [message['timestamp']]
    and tests ['hit' in message and message['hit']]; [hit = None] stands for
    a message without the key. *)
Record Message := {
  id : Z;
  channel_id : Z;
  timestamp : string;
  hit : option bool
}.

(** What [res.json()] gives, as far as the program looks into it: an
    object with [retry_after], an object with [total_results] and
    [messages], another object, JSON that is no object (an array, a string,
    a number, [null]), or a body that is no JSON at all. *)
Inductive Body :=
| BodyRateLimit (retry_after : Z)
| BodySearch (total_results : Z) (messages : list (list Message))
| BodyOther
| BodyNotJson
| BodyNotObject.

Record Response := {
  status_code : Z;
  text : string;
  body : Body
}.

Inductive Param := PInt (n : Z) | PBool (b : bool) | PStr (s : string).

Record Request := {
  method : string;
  path : string;
  params : list (string * Param);
  data : option string
}.

(** ** Effects *)

Inductive Level := INFO | WARNING | CRITICAL.

(** The two places that call [time.sleep]: the throttle at the top of
    [_request] and the back-off after a 429. *)
Inductive SleepSite := Throttle | Backoff.

Inductive Event :=
| Sleep (site : SleepSite) (seconds : Q)
| Http (rq : Request)
| Log (lvl : Level) (msg : string)
| Yield (running_total : Z) (batch : list Message).

Inductive Exn :=
| DiscordApiErrorExn (message : string)
| AssertionError (message : string)
| AttributeError
| KeyError (key : string)
| IndexError
| JSONDecodeError
| UnboundLocalError (name : string)
| TypeError.

(** A computation stops without a value when an exception is raised, when
    the script has no response left for an attempt ([Starved]: the run is
    only a prefix of a longer one), or when a loop ran out of fuel. *)
Inductive Failure :=
| Raised (e : Exn)
| Starved
| OutOfFuel.

Inductive Result (A : Type) :=
| Ok (a : A)
| Fail (f : Failure).
Arguments Ok {A} a.
Arguments Fail {A} f.

Record Run (A : Type) := mkRun {
  result : Result A;
  events : list Event;
  rest : list Response
}.
Arguments mkRun {A} _ _ _.
Arguments result {A} _.
Arguments events {A} _.
Arguments rest {A} _.

Definition M (A : Type) : Type := list Response -> Run A.

Definition ret {A} (a : A) : M A := fun s => mkRun (Ok a) [] s.

Definition raise {A} (e : Exn) : M A := fun s => mkRun (Fail (Raised e)) [] s.

Definition out_of_fuel {A} : M A := fun s => mkRun (Fail OutOfFuel) [] s.

Definition bind {A B} (m : M A) (k : A -> M B) : M B := fun s =>
  let r := m s in
  match result r with
  | Ok a =>
      let r' := k a (rest r) in
      mkRun (result r') (events r ++ events r') (rest r')
  | Fail f => mkRun (Fail f) (events r) (rest r)
  end.

Notation "x <- m ;; k" := (bind m (fun x => k))
  (at level 61, m at next level, right associativity).
Notation "m ;;; k" := (bind m (fun _ => k))
  (at level 61, right associativity).

(** A step without effects: a value, or an exception. *)
Definition lift {A} (r : Result A) : M A := fun s => mkRun r [] s.

Definition emit (e : Event) : M unit := fun s => mkRun (Ok tt) [e] s.

(** [time.sleep(seconds)], for a duration it accepts: it raises for a
    negative one and for one too large for the platform's timer (see
    [sleepable] below). *)
Definition sleep (site : SleepSite) (seconds : Q) : M unit := emit (Sleep site seconds).

Definition logging (lvl : Level) (msg : string) : M unit := emit (Log lvl msg).

(** [self.s.request(...)]: the attempt is made, and the next response of
    the script answers it. *)
Definition http (rq : Request) : M Response := fun s =>
  match s with
  | [] => mkRun (Fail Starved) [Http rq] []
  | res :: s' => mkRun (Ok res) [Http rq] s'
  end.

(** [try: m  except DiscordApiError as e: handler(str(e))]. *)
Definition try_except_DiscordApiError {A} (m : M A) (handler : string -> M A) : M A :=
  fun s =>
    let r := m s in
    match result r with
    | Fail (Raised (DiscordApiErrorExn msg)) =>
        let r' := handler msg (rest r) in
        mkRun (result r') (events r ++ events r') (rest r')
    | _ => r
    end.

(** [try: m  except Exception as e: handler; raise e]. *)
Definition try_except_reraise {A} (m : M A) (handler : M unit) : M A :=
  fun s =>
    let r := m s in
    match result r with
    | Fail (Raised e) =>
        let r' := handler (rest r) in
        mkRun (match result r' with Ok _ => Fail (Raised e) | Fail f => Fail f end)
              (events r ++ events r') (rest r')
    | _ => r
    end.

(** ** [DiscordApiError] *)

(** [DiscordApiError.__init__]: the exception keeps one message, the HTTP
    code (when positive) in front of the details. *)
Definition DiscordApiError (http_code : Z) (details : string) : Exn :=
  let message := "" in
  let message :=
    if 0 <? http_code
    then message ++ "[HTTP code: " ++ str_of_int http_code ++ "] "
    else message in
  let message := message ++ details in
  DiscordApiErrorExn message.

(** ** [Crawler] *)

Module Crawler.

Definition API_URL : string := "https://discordapp.com/api/v6".

(** The keys of [HTTP_CODE_MESSAGES] are integers and the string ['5xx']. *)
Inductive Key := KInt (n : Z) | KStr (s : string).

Definition key_eqb (a b : Key) : bool :=
  match a, b with
  | KInt x, KInt y => x =? y
  | KStr x, KStr y => String.eqb x y
  | _, _ => false
  end.

Definition HTTP_CODE_MESSAGES : list (Key * string) :=
  [ (KInt 400, "The request was improperly formatted, or the server couldn't understand it.");
    (KInt 401, "The Authorization header was missing or invalid.");
    (KInt 403, "The Authorization token you passed did not have permission to the resource.");
    (KInt 404, "The resource at the location specified doesn't exist.");
    (KInt 405, "The HTTP method used is not valid for the location specified.");
    (KInt 502, "There was not a gateway available to process your request. Wait a bit and retry.");
    (KStr "5xx", "The server had an error processing your request.") ].

Fixpoint lookup (k : Key) (d : list (Key * string)) : option string :=
  match d with
  | [] => None
  | (k', v) :: d' => if key_eqb k k' then Some v else lookup k d'
  end.

(** [d[k]]. *)
Definition getitem (k : Key) (d : list (Key * string)) : Result string :=
  match lookup k d with
  | Some v => Ok v
  | None => Fail (Raised (KeyError match k with
                                   | KInt n => str_of_int n
                                   | KStr s => s
                                   end))
  end.

Definition RATE_LIMITED_RETRY : nat := 5.

Record t := {
  headers : list (string * string);
  default_sleep : Q
}.

(** [Crawler.__init__]. *)
Definition init (token : string) (default_sleep : Q) : t :=
  {| headers := [("Authorization", token); ("Content-Type", "application/json")];
     default_sleep := default_sleep |}.

(** [res.json()['retry_after']]. *)
Definition json_retry_after (res : Response) : Result Z :=
  match body res with
  | BodyRateLimit ra => Ok ra
  | BodySearch _ _ => Fail (Raised (KeyError "retry_after"))
  | BodyOther => Fail (Raised (KeyError "retry_after"))
  | BodyNotJson => Fail (Raised JSONDecodeError)
  | BodyNotObject => Fail (Raised TypeError)
  end.

(** The body of [for i in range(self.RATE_LIMITED_RETRY)], with [n]
    iterations left, and the statement after the loop. *)
Fixpoint attempts (n : nat) (rq : Request) : M (option Response) :=
  match n with
  | O =>
      logging CRITICAL
        ("Failed to request it, although we tried at "
           ++ str_of_int (Z.of_nat RATE_LIMITED_RETRY) ++ " times.") ;;;
      ret None
  | S n' =>
      res <- http rq ;;
      match lookup (KInt (status_code res)) HTTP_CODE_MESSAGES with
      | Some explanation =>
          raise (DiscordApiError (status_code res)
                   (explanation ++ newline ++ text res))
      | None =>
          if (500 <=? status_code res) && (status_code res <? 600) then
            explanation <- lift (getitem (KStr "5xx") HTTP_CODE_MESSAGES) ;;
            raise (DiscordApiError (status_code res) explanation)
          else if status_code res =? 429 then
            retry_after <- lift (json_retry_after res) ;;
            logging WARNING
              ("Rate limited. We will sleep " ++ str_of_int retry_after
                 ++ " ms, and retry it.") ;;;
            sleep Backoff (inject_Z retry_after / 1000)%Q ;;;
            attempts n' rq
          else ret (Some res)
      end
  end.

(** [Crawler._request].  [None] is Python's [None], returned when the loop
    ends without a [return]. *)
Definition _request (self : t) (method : string) (path : string)
    (params : list (string * Param)) (data : option string) : M (option Response) :=
  sleep Throttle (default_sleep self) ;;;
  attempts RATE_LIMITED_RETRY
    {| method := method; path := API_URL ++ path; params := params; data := data |}.

(** [l[i]] and [l[-1]]. *)
Definition index {A} (l : list A) (i : nat) : Result A :=
  match nth_error l i with
  | Some a => Ok a
  | None => Fail (Raised IndexError)
  end.

Definition index_last {A} (l : list A) : Result A :=
  match rev l with
  | a :: _ => Ok a
  | [] => Fail (Raised IndexError)
  end.

(** [res.json()] followed by the reads of ['total_results'] and
    ['messages'].  [res] is [None] when [_request] fell out of its loop. *)
Definition json_search (res : option Response) : Result (Z * list (list Message)) :=
  match res with
  | None => Fail (Raised AttributeError)
  | Some res =>
      match body res with
      | BodySearch total_results messages => Ok (total_results, messages)
      | BodyRateLimit _ => Fail (Raised (KeyError "total_results"))
      | BodyOther => Fail (Raised (KeyError "total_results"))
      | BodyNotJson => Fail (Raised JSONDecodeError)
      | BodyNotObject => Fail (Raised TypeError)
      end
  end.

(** ['hit' in message and message['hit']]. *)
Definition is_hit (message : Message) : bool :=
  match hit message with
  | Some flag => flag
  | None => false
  end.

(** [list(map(lambda message_block: list(filter(is_hit, message_block))[0],
    messages))]. *)
Fixpoint extract_hits (messages : list (list Message)) : Result (list Message) :=
  match messages with
  | [] => Ok []
  | message_block :: blocks =>
      match index (filter is_hit message_block) 0 with
      | Ok first_hit =>
          match extract_hits blocks with
          | Ok hits => Ok (first_hit :: hits)
          | Fail f => Fail f
          end
      | Fail f => Fail f
      end
  end.

(** The generator object of [search_messages_by_author_id]: its arguments
    and locals, and the point where it is suspended. *)
Inductive Pc :=
| AtStart
| AfterYield (messages : list Message)
| Finished.

Record Gen := mkGen {
  self : t;
  room_id : Z;
  room_type : string;
  author_id : Z;
  oldest_message_id : Z;
  newest_message_id : Z;
  offset : Z;
  total_results_size : Z;
  pc : Pc
}.

Definition set_pc (g : Gen) (p : Pc) : Gen :=
  mkGen (self g) (room_id g) (room_type g) (author_id g) (oldest_message_id g)
        (newest_message_id g) (offset g) (total_results_size g) p.

Definition set_room_type (g : Gen) (r : string) : Gen :=
  mkGen (self g) (room_id g) r (author_id g) (oldest_message_id g)
        (newest_message_id g) (offset g) (total_results_size g) (pc g).

Definition set_newest_message_id (g : Gen) (n : Z) : Gen :=
  mkGen (self g) (room_id g) (room_type g) (author_id g) (oldest_message_id g)
        n (offset g) (total_results_size g) (pc g).

Definition set_offset (g : Gen) (n : Z) : Gen :=
  mkGen (self g) (room_id g) (room_type g) (author_id g) (oldest_message_id g)
        (newest_message_id g) n (total_results_size g) (pc g).

Definition set_total_results_size (g : Gen) (n : Z) : Gen :=
  mkGen (self g) (room_id g) (room_type g) (author_id g) (oldest_message_id g)
        (newest_message_id g) (offset g) n (pc g).

(** Calling [search_messages_by_author_id] runs none of its body. *)
Definition search_messages_by_author_id (self : t) (room_id : Z) (room_type : string)
    (author_id : Z) (oldest_message_id newest_message_id : Z) : Gen :=
  mkGen self room_id room_type author_id oldest_message_id newest_message_id 0 0 AtStart.

Definition search_request (g : Gen) : M (option Response) :=
  _request (self g) "get"
    ("/" ++ room_type g ++ "/" ++ str_of_int (room_id g) ++ "/messages/search")
    [ ("author_id", PInt (author_id g));
      ("include_nsfw", PBool true);
      ("offset", PInt (offset g));
      ("sort_by", PStr "timestamp") ]
    None.

Definition in_range (g : Gen) (message : Message) : bool :=
  (oldest_message_id g <=? id message) && (id message <=? newest_message_id g).

(** The [while True] loop, run until the generator yields, returns or
    raises.  The result is the yielded pair ([None] when the generator
    returned) and the generator as it is left. *)
Fixpoint sweep (fuel : nat) (g : Gen) : M (option (Z * list Message) * Gen) :=
  match fuel with
  | O => out_of_fuel
  | S fuel' =>
      res <- search_request g ;;
      page <- lift (json_search res) ;;
      messages <- lift (extract_hits (snd page)) ;;
      let unfiltered_results_size := Z.of_nat (List.length messages) in
      stop <- (if unfiltered_results_size =? 0 then ret true
               else first <- lift (index messages 0) ;;
                    ret (id first <? oldest_message_id g)) ;;
      if stop : bool then ret (None, set_pc g Finished)
      else
        let messages := filter (in_range g) messages in
        let filtered_results_size := Z.of_nat (List.length messages) in
        if filtered_results_size =? 0 then
          sweep fuel' (set_offset g (offset g + unfiltered_results_size))
        else
          let g := set_total_results_size g (total_results_size g + filtered_results_size) in
          emit (Yield (total_results_size g) messages) ;;;
          ret (Some (total_results_size g, messages), set_pc g (AfterYield messages))
  end.

(** One [next(generator)]. *)
Definition next (fuel : nat) (g : Gen) : M (option (Z * list Message) * Gen) :=
  match pc g with
  | Finished => ret (None, g)
  | AtStart =>
      if existsb (String.eqb (lower (room_type g))) ["channel"; "guild"] then
        sweep fuel (set_room_type g (lower (room_type g) ++ "s"))
      else
        raise (AssertionError
                 ("Invalid room_type argument. room_type should be either "
                    ++ dquote ++ "channel" ++ dquote ++ " or "
                    ++ dquote ++ "guild" ++ dquote ++ "."))
  | AfterYield messages =>
      last <- lift (index_last messages) ;;
      sweep fuel (set_newest_message_id g (id last - 1))
  end.

(** [for pair in generator: body], with the state [st] the body works on. *)
Fixpoint for_each {St} (fuel : nat) (body : Z * list Message -> St -> M St)
    (g : Gen) (st : St) : M St :=
  match fuel with
  | O => out_of_fuel
  | S fuel' =>
      r <- next fuel g ;;
      match fst r with
      | None => ret st
      | Some yielded =>
          st <- body yielded st ;;
          for_each fuel' body (snd r) st
      end
  end.

(** [list(generator)]: the generator consumed to its end, the pairs kept
    in order. *)
Definition keep (yielded : Z * list Message) (acc : list (Z * list Message))
    : M (list (Z * list Message)) :=
  ret (acc ++ [yielded])%list.

Definition drain (fuel : nat) (g : Gen) : M (list (Z * list Message)) :=
  for_each fuel keep g [].

(** [str(x)] for an optional string: [None] prints as [None]. *)
Definition str_of_opt (x : option string) : string :=
  match x with
  | Some s => s
  | None => "None"
  end.

Definition message_path (channel_id message_id : Z) : string :=
  "/channels/" ++ str_of_int channel_id ++ "/messages/" ++ str_of_int message_id.

Definition modify_channel_message_by_message_id (self : t) (channel_id message_id : Z)
    (replace_to : option string) : M bool :=
  try_except_DiscordApiError
    (res <- _request self "patch" (message_path channel_id message_id) []
              (Some ("{" ++ dquote ++ "content" ++ dquote ++ ": "
                       ++ dquote ++ str_of_opt replace_to ++ dquote ++ "}")) ;;
     ret true)
    (fun e =>
       logging WARNING "" ;;;
       logging WARNING e ;;;
       logging WARNING "Skip this message which cannot be done to modify." ;;;
       ret false).

Definition delete_channel_message_by_message_id (self : t) (channel_id message_id : Z)
    : M bool :=
  try_except_DiscordApiError
    (res <- _request self "delete" (message_path channel_id message_id) [] None ;;
     ret true)
    (fun e =>
       logging WARNING "" ;;;
       logging WARNING e ;;;
       logging WARNING "Skip this message which cannot be done to delete." ;;;
       ret false).

End Crawler.

(** ** The command *)

Section Orchestrator.

(** The random source: [entropy k] is the [k]-th number the [random] module
    draws during the run. *)
Variable entropy : nat -> nat.

Definition digits : string := "0123456789".
Definition ascii_letters : string :=
  "abcdefghijklmnopqrstuvwxyzABCDEFGHIJKLMNOPQRSTUVWXYZ".
Definition default_chars : string := digits ++ ascii_letters ++ "        .,!".

(** [random.choice(chars)] repeated [n] times, from draw [k] on. *)
Fixpoint choices (n k : nat) (chars : string) : string :=
  match n with
  | O => ""
  | S n' =>
      match String.get (Nat.modulo (entropy k) (String.length chars)) chars with
      | Some c => String c (choices n' (S k) chars)
      | None => choices n' (S k) chars
      end
  end.

(** [generate_random]: a length from [randrange(min_length, max_length + 1)],
    then that many characters.  [k] counts the draws made so far; the second
    component is the count afterwards.  This is the function for
    [min_length <= max_length] and a [chars] that is not empty, which is how
    [main] calls it; otherwise [randrange] or [choice] raises. *)
Definition generate_random (k : nat) (min_length max_length : nat) (chars : string)
    : string * nat :=
  let n := (min_length + Nat.modulo (entropy k) (max_length + 1 - min_length))%nat in
  (choices n (S k) chars, (S k + n)%nat).

(** The locals of [main] that change while it runs. *)
Record Locals := mkLocals {
  newest_message_id : Z;
  newest_message_datetime : option string;
  total_results_size : Z;
  failed_count : Z;
  message : option Message;
  replace_to : option string;
  drawn : nat
}.

Definition see_first (st : Locals) (m : Message) : Locals :=
  mkLocals (id m) (Some (timestamp m)) (total_results_size st) (failed_count st)
           (message st) (replace_to st) (drawn st).

Definition set_message (st : Locals) (m : Message) : Locals :=
  mkLocals (newest_message_id st) (newest_message_datetime st) (total_results_size st)
           (failed_count st) (Some m) (replace_to st) (drawn st).

Definition set_total (st : Locals) (n : Z) : Locals :=
  mkLocals (newest_message_id st) (newest_message_datetime st) n
           (failed_count st) (message st) (replace_to st) (drawn st).

Definition count_failure (st : Locals) : Locals :=
  mkLocals (newest_message_id st) (newest_message_datetime st) (total_results_size st)
           (failed_count st + 1) (message st) (replace_to st) (drawn st).

Definition set_replace_to (st : Locals) (text : string) (k : nat) : Locals :=
  mkLocals (newest_message_id st) (newest_message_datetime st) (total_results_size st)
           (failed_count st) (message st) (Some text) k.

(** The optional replace step of one message (lines 182 to 185): the value
    of [is_success] and the locals afterwards. *)
Definition replace_step (crawler : Crawler.t) (replace_before_delete : string)
    (channel_id message_id : Z) (st : Locals) : M (bool * Locals) :=
  let is_success := true in
  if negb (String.eqb replace_before_delete "none") then
    let st :=
      if String.eqb replace_before_delete "random" then
        let r := generate_random (drawn st) 5 30 default_chars in
        set_replace_to st (fst r) (snd r)
      else st in
    is_success <- Crawler.modify_channel_message_by_message_id
                    crawler channel_id message_id (replace_to st) ;;
    ret (is_success, st)
  else ret (is_success, st).

(** The body of [for message in messages]. *)
Definition process_message (crawler : Crawler.t) (replace_before_delete : string)
    (m : Message) (st : Locals) : M Locals :=
  let st := set_message st m in
  let st := if newest_message_id st =? 0 then see_first st m else st in
  let message_id := id m in
  let channel_id := channel_id m in
  r <- replace_step crawler replace_before_delete channel_id message_id st ;;
  let st := snd r in
  if fst r then
    deleted <- Crawler.delete_channel_message_by_message_id crawler channel_id message_id ;;
    if negb deleted then ret (count_failure st) else ret st
  else ret (count_failure st).

Fixpoint for_messages (crawler : Crawler.t) (replace_before_delete : string)
    (messages : list Message) (st : Locals) : M Locals :=
  match messages with
  | [] => ret st
  | m :: messages' =>
      st <- process_message crawler replace_before_delete m st ;;
      for_messages crawler replace_before_delete messages' st
  end.

(** The body of [for total_results_size, messages in pbar]; the progress
    bar itself only draws. *)
Definition process_batch (crawler : Crawler.t) (replace_before_delete : string)
    (yielded : Z * list Message) (st : Locals) : M Locals :=
  for_messages crawler replace_before_delete (snd yielded) (set_total st (fst yielded)).

(** Reading a local that is assigned only inside the loop. *)
Definition unbound {A} (name : string) (x : option A) : Result A :=
  match x with
  | Some a => Ok a
  | None => Fail (Raised (UnboundLocalError name))
  end.

(** What [main] does after the loop. *)
Definition report (st : Locals) : M Locals :=
  if total_results_size st =? 0 then
    logging INFO "" ;;;
    logging INFO "There are no messages to bulky delete..." ;;;
    ret st
  else
    last <- lift (unbound "message" (message st)) ;;
    let oldest_message_id := id last in
    let oldest_message_datetime := timestamp last in
    logging INFO "" ;;;
    logging INFO ("Done to bulky delete "
                    ++ str_of_int (total_results_size st - failed_count st)
                    ++ " messages!") ;;;
    logging INFO ("Failed to modify or to delete "
                    ++ str_of_int (failed_count st) ++ " messages.") ;;;
    logging INFO ("Message IDs: from " ++ str_of_int oldest_message_id
                    ++ " to " ++ str_of_int (newest_message_id st)) ;;;
    newest_message_datetime <- lift (unbound "newest_message_datetime"
                                       (newest_message_datetime st)) ;;
    logging INFO ("Message Timestamps: from " ++ oldest_message_datetime
                    ++ " to " ++ newest_message_datetime) ;;;
    ret st.

(** [main], with enough fuel for any script: every turn of a loop that
    does not end it receives at least one response.  The value is the
    locals at the end, which Python drops. *)
Definition main (token token_type : string) (room_id : Z) (room_type : string)
    (author_id newest_message_id oldest_message_id : Z)
    (replace_before_delete : string) (replace_to : option string)
    (default_sleep : Q) : M Locals := fun script =>
  (let token_str :=
     if negb (String.eqb token_type "User") then token_type ++ " " ++ token else token in
   logging INFO "Started!" ;;;
   try_except_reraise
     (let crawler := Crawler.init token_str default_sleep in
      let generator :=
        Crawler.search_messages_by_author_id crawler room_id room_type author_id
          oldest_message_id newest_message_id in
      let st := mkLocals 0 None 0 0 None replace_to 0 in
      st <- Crawler.for_each (S (List.length script))
              (process_batch crawler replace_before_delete) generator st ;;
      report st)
     (logging INFO "" ;;;
      logging WARNING "Aborted!")) script.

End Orchestrator.

(** ** Reading a run *)

Definition is_attempt (e : Event) : bool :=
  match e with
  | Http _ => true
  | _ => false
  end.

Definition is_sleep (e : Event) : bool :=
  match e with
  | Sleep _ _ => true
  | _ => false
  end.

Definition is_throttle (e : Event) : bool :=
  match e with
  | Sleep Throttle _ => true
  | _ => false
  end.

Definition is_critical (e : Event) : bool :=
  match e with
  | Log CRITICAL _ => true
  | _ => false
  end.

(** The number of HTTP attempts of a run. *)
Definition attempts_made (evs : list Event) : nat :=
  List.length (filter is_attempt evs).

(** Every HTTP attempt comes after an event accepted by [arms] that no
    earlier attempt has used up; [armed] tells whether one is pending. *)
Fixpoint paced (arms : Event -> bool) (armed : bool) (evs : list Event) : bool :=
  match evs with
  | [] => true
  | e :: evs' =>
      if is_attempt e then armed && paced arms false evs'
      else paced arms (armed || arms e) evs'
  end.

(** The requests of a run made with the given method. *)
Definition calls (m : string) (evs : list Event) : list Event :=
  filter (fun e => match e with
                   | Http rq => String.eqb (method rq) m
                   | _ => false
                   end) evs.

(** The pairs a generator handed out during a run, in order. *)
Fixpoint yields (evs : list Event) : list (Z * list Message) :=
  match evs with
  | [] => []
  | Yield running_total batch :: evs' => (running_total, batch) :: yields evs'
  | _ :: evs' => yields evs'
  end.

(** The events one call of [attempts] can leave: attempts of the same
    request, each but the last followed by a warning and a back-off. *)
Inductive attempts_trace (rq : Request) : list Event -> Prop :=
| trace_give_up : forall msg, attempts_trace rq [Log CRITICAL msg]
| trace_last : attempts_trace rq [Http rq]
| trace_retry : forall msg q evs,
    attempts_trace rq evs ->
    attempts_trace rq (Http rq :: Log WARNING msg :: Sleep Backoff q :: evs).

(** A 429 response announcing [retry_after] milliseconds. *)
Definition rate_limited (retry_after : Z) (text : string) : Response :=
  {| status_code := 429; text := text; body := BodyRateLimit retry_after |}.

(** The sizes of the batches of a list of yielded pairs, added up. *)
Fixpoint sizes_sum (ys : list (Z * list Message)) : Z :=
  match ys with
  | [] => 0
  | y :: ys' => Z.of_nat (List.length (snd y)) + sizes_sum ys'
  end.

(** Each running total is the one before plus the size of its batch,
    starting from [acc]. *)
Fixpoint running_from (acc : Z) (ys : list (Z * list Message)) : Prop :=
  match ys with
  | [] => True
  | y :: ys' => fst y = acc + Z.of_nat (List.length (snd y)) /\ running_from (fst y) ys'
  end.

(** The upper bound the generator will filter with at its next request
    is at most [bound]. *)
Definition cursor_le (bound : Z) (g : Crawler.Gen) : Prop :=
  match Crawler.pc g with
  | Crawler.AtStart => Crawler.newest_message_id g <= bound
  | Crawler.AfterYield messages =>
      forall last, Crawler.index_last messages = Ok last -> id last - 1 <= bound
  | Crawler.Finished => True
  end.

(** What one resumption of the generator [g] leaves, for a cursor bounded
    by [bound]. *)
Definition resumed (bound : Z) (g : Crawler.Gen)
    (r : Run (option (Z * list Message) * Crawler.Gen)) : Prop :=
  match result r with
  | Ok (Some (running_total, batch), g') =>
      yields (events r) = [(running_total, batch)] /\
      batch <> [] /\
      Forall (fun m => Crawler.oldest_message_id g <= id m <= bound) batch /\
      running_total = Crawler.total_results_size g + Z.of_nat (List.length batch) /\
      Crawler.oldest_message_id g' = Crawler.oldest_message_id g /\
      Crawler.total_results_size g' = running_total /\
      cursor_le bound g'
  | Ok (None, g') => yields (events r) = [] /\ Crawler.pc g' = Crawler.Finished
  | Fail _ => yields (events r) = []
  end.

(** A run ends for a reason of the program or of the script, not for
    lack of fuel, and hands back no more of the script than it was given. *)
Definition settles {A} (s : list Response) (r : Run A) : Prop :=
  result r <> Fail OutOfFuel /\ (List.length (rest r) <= List.length s)%nat.

(** ** Sample data *)

Definition sample_crawler : Crawler.t := Crawler.init "token" 0.

Definition sample_hit (i : Z) : Message :=
  {| id := i; channel_id := 7; timestamp := "t"; hit := Some true |}.

Definition sample_context (i : Z) : Message :=
  {| id := i; channel_id := 7; timestamp := "t"; hit := None |}.

(** A search page with one block per id: a context message, then the hit. *)
Definition sample_page (ids : list Z) : Response :=
  {| status_code := 200; text := "";
     body := BodySearch (Z.of_nat (List.length ids))
               (map (fun i => [sample_context (i + 1); sample_hit i]) ids) |}.

Definition sample_ok : Response :=
  {| status_code := 200; text := ""; body := BodyOther |}.

Definition sample_generator : Crawler.Gen :=
  Crawler.search_messages_by_author_id sample_crawler 9 "channel" 5 100 200.

(** A status [_request] hands back to its caller: not in the table, not a
    5xx, not 429. *)
Definition passes (status : Z) : Prop :=
  ~ In status [400; 401; 403; 404; 405] /\ ~ (500 <= status < 600) /\ status <> 429.

Definition request_of (method path : string) (params : list (string * Param))
    (data : option string) : Request :=
  {| method := method; path := Crawler.API_URL ++ path; params := params; data := data |}.

(** A status that makes [_request] raise [DiscordApiError]. *)
Definition terminal (status : Z) : Prop :=
  In status [400; 401; 403; 404; 405; 502] \/ 500 <= status < 600.

Definition ends_with (last : Event) (evs : list Event) : Prop :=
  exists before, evs = (before ++ [last])%list.

(** Each number of the list is above the one before it, the first above
    [prev]. *)
Fixpoint increasing (prev : Z) (l : list Z) : Prop :=
  match l with
  | [] => True
  | x :: l' => prev < x /\ increasing x l'
  end.

(** Every message of a later batch has an id below the id of the last
    message of each earlier batch. *)
Fixpoint descending (ys : list (Z * list Message)) : Prop :=
  match ys with
  | [] => True
  | y :: ys' =>
      (forall last, Crawler.index_last (snd y) = Ok last ->
                    Forall (fun y' => Forall (fun m => id m < id last) (snd y')) ys') /\
      descending ys'
  end.

(** The two generator states differ at most in the room type, the upper
    bound, the offset, the running total and the point of suspension. *)
Definition same_search (g g' : Crawler.Gen) : Prop :=
  Crawler.self g' = Crawler.self g /\
  Crawler.room_id g' = Crawler.room_id g /\
  Crawler.author_id g' = Crawler.author_id g /\
  Crawler.oldest_message_id g' = Crawler.oldest_message_id g.

(** The search request for a room, an author and an offset. *)
Definition search_request_at (room_type : string) (room_id author_id offset : Z)
    : Request :=
  request_of "get"
    ("/" ++ room_type ++ "/" ++ str_of_int room_id ++ "/messages/search")
    [ ("author_id", PInt author_id);
      ("include_nsfw", PBool true);
      ("offset", PInt offset);
      ("sort_by", PStr "timestamp") ]
    None.

(** An event that, when it is an HTTP attempt, is a search request for the
    room and the author at an offset from [low] on. *)
Definition searches (room_type : string) (room_id author_id low : Z) (e : Event) : Prop :=
  is_attempt e = true ->
  exists offset, low <= offset /\
                 e = Http (search_request_at room_type room_id author_id offset).

(** Every character of [s] occurs in [chars]. *)
Fixpoint drawn_from (chars s : string) : Prop :=
  match s with
  | EmptyString => True
  | String c s' => (exists i, String.get i chars = Some c) /\ drawn_from chars s'
  end.

(** A failure other than a [DiscordApiError]. *)
Definition not_api_error (f : Failure) : Prop :=
  forall msg, f <> Raised (DiscordApiErrorExn msg).

(** A duration [time.sleep] accepts: not negative, and not beyond what the
    timer of the platform can hold; 1000000 seconds is below that ceiling
    on every platform. *)
Definition sleepable (seconds : Q) : Prop :=
  (0 <= seconds)%Q /\ (seconds <= 1000000)%Q.

(** A [retry_after], in milliseconds, whose back-off [time.sleep] accepts. *)
Definition backs_off (retry_after : Z) : Prop :=
  sleepable (inject_Z retry_after / 1000)%Q.

(** The sleeps a call can make on this script are accepted: the throttle,
    and the back-off of every 429 that announces one. *)
Definition well_timed (self : Crawler.t) (script : list Response) : Prop :=
  sleepable (Crawler.default_sleep self) /\
  Forall (fun res => status_code res = 429 ->
                     forall retry_after, Crawler.json_retry_after res = Ok retry_after ->
                                         backs_off retry_after)
         script.

(** The events of the attempts of a call, read against the responses that
    answer them: an attempt is the last event, or its response is a 429
    that announces [retry_after], and the attempt is followed by the
    warning, the back-off of [retry_after / 1000] seconds, and the events of
    the next attempt on the rest of the script; when no attempt is left, the
    critical line. *)
Inductive backed_off (rq : Request) : list Response -> list Event -> Prop :=
| backed_off_give_up : forall s msg, backed_off rq s [Log CRITICAL msg]
| backed_off_last : forall s, backed_off rq s [Http rq]
| backed_off_retry : forall res s retry_after evs,
    status_code res = 429 ->
    Crawler.json_retry_after res = Ok retry_after ->
    backed_off rq s evs ->
    backed_off rq (res :: s)
      (Http rq
         :: Log WARNING ("Rate limited. We will sleep " ++ str_of_int retry_after
                           ++ " ms, and retry it.")
         :: Sleep Backoff (inject_Z retry_after / 1000)%Q
         :: evs).

(** [HTTP_CODE_MESSAGES] as [_request] reads it for a status that ends
    the call: the text under the status when it is a key, the text under
    ['5xx'] otherwise. *)
Definition canned (status : Z) : string :=
  if status =? 400 then
    "The request was improperly formatted, or the server couldn't understand it."
  else if status =? 401 then
    "The Authorization header was missing or invalid."
  else if status =? 403 then
    "The Authorization token you passed did not have permission to the resource."
  else if status =? 404 then
    "The resource at the location specified doesn't exist."
  else if status =? 405 then
    "The HTTP method used is not valid for the location specified."
  else if status =? 502 then
    "There was not a gateway available to process your request. Wait a bit and retry."
  else "The server had an error processing your request.".

(** The 429 responses of a list of announced delays and texts, and the
    events of the attempts they answer. *)
Definition limited (limits : list (Z * string)) : list Response :=
  map (fun l => rate_limited (fst l) (snd l)) limits.

Definition retried (rq : Request) (limits : list (Z * string)) : list Event :=
  flat_map (fun l => [ Http rq;
                       Log WARNING ("Rate limited. We will sleep " ++ str_of_int (fst l)
                                      ++ " ms, and retry it.");
                       Sleep Backoff (inject_Z (fst l) / 1000)%Q ])
           limits.

(** * Properties *)

Lemma getitem_5xx :
  Crawler.getitem (Crawler.KStr "5xx") Crawler.HTTP_CODE_MESSAGES
  = Ok "The server had an error processing your request.".
Proof. reflexivity. Qed.

Ltac run_cbn :=
  cbn [Crawler.attempts Crawler._request Crawler.RATE_LIMITED_RETRY
       bind http lift ret raise emit logging sleep
       try_except_DiscordApiError result events rest app].

Ltac run_step := run_cbn; rewrite ?getitem_5xx; run_cbn.

(** ** Strings *)

Lemma append_assoc (a b c : string) : (a ++ b) ++ c = a ++ (b ++ c).
Proof.
  induction a as [|ch a IH]; simpl; [reflexivity|].
  now rewrite IH.
Qed.

Lemma append_nil_r (a : string) : a ++ "" = a.
Proof.
  induction a as [|ch a IH]; simpl; [reflexivity|].
  now rewrite IH.
Qed.

(** ** The transport client *)

Lemma attempts_shape n rq s :
  attempts_trace rq (events (Crawler.attempts n rq s)).
Proof.
  revert s; induction n as [|n IH]; intros s.
  - run_step. constructor.
  - destruct s as [|res s]; run_step.
    + constructor.
    + destruct (Crawler.lookup _ _); run_step; [constructor|].
      destruct (_ && _)%bool; run_step; [constructor|].
      destruct (_ =? _); run_step; [|constructor].
      destruct (Crawler.json_retry_after res); run_step; [|constructor].
      constructor. apply IH.
Qed.

Lemma attempts_trace_paced rq evs :
  attempts_trace rq evs ->
  paced is_sleep true evs = true /\ filter is_throttle evs = [].
Proof.
  induction 1 as [msg| |msg q evs _ [IHp IHt]]; simpl; auto.
Qed.

Lemma attempts_trace_yields rq evs : attempts_trace rq evs -> yields evs = [].
Proof.
  induction 1; simpl; auto.
Qed.

Lemma attempts_trace_requests rq evs rq' :
  attempts_trace rq evs -> In (Http rq') evs -> rq' = rq.
Proof.
  induction 1 as [msg| |msg q evs _ IH]; simpl; intros Hin.
  - destruct Hin as [Hin|[]]; discriminate.
  - destruct Hin as [Hin|[]]; congruence.
  - destruct Hin as [Hin|[Hin|[Hin|Hin]]]; try discriminate; [congruence|auto].
Qed.

(** A call that comes back has used at least one response. *)
Lemma attempts_rest n rq s :
  (List.length (rest (Crawler.attempts n rq s)) <= List.length s)%nat /\
  (forall a, n <> O -> result (Crawler.attempts n rq s) = Ok a ->
             (List.length (rest (Crawler.attempts n rq s)) < List.length s)%nat).
Proof.
  revert s; induction n as [|n IH]; intros s.
  - run_step. split; [lia|]. intros a Hn; congruence.
  - destruct s as [|res s]; run_step.
    + split; [simpl; lia|]. intros a _ H; discriminate.
    + destruct (Crawler.lookup _ _); run_step;
        [split; [simpl; lia | intros a _ H; discriminate]|].
      destruct (_ && _)%bool; run_step;
        [split; [simpl; lia | intros a _ H; discriminate]|].
      destruct (_ =? _); run_step; [|split; [simpl; lia | intros; simpl; lia]].
      destruct (Crawler.json_retry_after res); run_step;
        [|split; [simpl; lia | intros a _ H; discriminate]].
      destruct (IH s) as [Hle _].
      split; [simpl; lia | intros; simpl; lia].
Qed.

Lemma attempts_fuel_free n rq s :
  result (Crawler.attempts n rq s) <> Fail OutOfFuel.
Proof.
  revert s; induction n as [|n IH]; intros s.
  - run_step. discriminate.
  - destruct s as [|res s]; run_step; [discriminate|].
    destruct (Crawler.lookup _ _); run_step; [discriminate|].
    destruct (_ && _)%bool; run_step; [discriminate|].
    destruct (_ =? _); run_step; [|discriminate].
    destruct (Crawler.json_retry_after res) as [ra|f] eqn:E; run_step; [apply IH|].
    unfold Crawler.json_retry_after in E.
    destruct (body res); congruence.
Qed.

Lemma lookup_unlisted c :
  existsb (Z.eqb c) [400; 401; 403; 404; 405; 502] = false ->
  Crawler.lookup (Crawler.KInt c) Crawler.HTTP_CODE_MESSAGES = None.
Proof.
  cbn [existsb Crawler.lookup Crawler.HTTP_CODE_MESSAGES Crawler.key_eqb].
  intros H.
  repeat (apply orb_false_elim in H; destruct H as [-> H]).
  reflexivity.
Qed.

(** C7: a 429 announcing 200 ms followed by a 200: the call makes two
    attempts, sleeps 200/1000 = 0.2 seconds between them, and returns the
    second response. *)
Theorem request_retries_after_429 (self : Crawler.t) (method path : string)
    (params : list (string * Param)) (data : option string)
    (text1 text2 : string) (body2 : Body) (tail : list Response) :
  let first := rate_limited 200 text1 in
  let second := {| status_code := 200; text := text2; body := body2 |} in
  let rq := {| method := method; path := Crawler.API_URL ++ path;
               params := params; data := data |} in
  let r := Crawler._request self method path params data (first :: second :: tail) in
  result r = Ok (Some second) /\
  events r = [ Sleep Throttle (Crawler.default_sleep self);
               Http rq;
               Log WARNING "Rate limited. We will sleep 200 ms, and retry it.";
               Sleep Backoff (inject_Z 200 / 1000)%Q;
               Http rq ] /\
  (inject_Z 200 / 1000 == 2 # 10)%Q /\
  attempts_made (events r) = 2%nat /\
  rest r = tail.
Proof.
  repeat split.
Qed.

(** C2, at the input where the code leaves it: after five 429 responses
    [_request] logs the critical message and returns [None] without raising,
    and [modify_channel_message_by_message_id] and
    [delete_channel_message_by_message_id] then return [True]. *)
Theorem ceiling_exhausted_reports_success (self : Crawler.t) (channel_id message_id : Z)
    (replace_to : option string) (method path : string)
    (params : list (string * Param)) (data : option string)
    (a b c d e : Z) (ta tb tc td te : string) (tail : list Response) :
  let script := ([ rate_limited a ta; rate_limited b tb; rate_limited c tc;
                   rate_limited d td; rate_limited e te ] ++ tail)%list in
  let r := Crawler._request self method path params data script in
  result r = Ok None /\
  attempts_made (events r) = 5%nat /\
  filter is_critical (events r)
    = [Log CRITICAL "Failed to request it, although we tried at 5 times."] /\
  rest r = tail /\
  result (Crawler.delete_channel_message_by_message_id self channel_id message_id script)
    = Ok true /\
  result (Crawler.modify_channel_message_by_message_id self channel_id message_id
            replace_to script)
    = Ok true.
Proof.
  repeat split.
Qed.

(** C3 as stated fails: with [default_sleep] 1 and a 429 before the 200,
    the second attempt has no throttle sleep before it. *)
Lemma retry_not_throttled :
  paced is_throttle false
    (events (Crawler._request (Crawler.init "token" 1) "get" "/x" [] None
               [ rate_limited 200 "";
                 {| status_code := 200; text := ""; body := BodyOther |} ]))
  = false.
Proof. reflexivity. Qed.

Lemma attempts_backed_off n rq s :
  backed_off rq s (events (Crawler.attempts n rq s)).
Proof.
  revert s; induction n as [|n IH]; intros s.
  - run_step. constructor.
  - destruct s as [|res s]; run_step.
    + constructor.
    + destruct (Crawler.lookup _ _); run_step; [constructor|].
      destruct (_ && _)%bool; run_step; [constructor|].
      destruct (status_code res =? 429) eqn:E429; run_step; [|constructor].
      destruct (Crawler.json_retry_after res) as [retry_after|f] eqn:Ej; run_step;
        [|constructor].
      apply Z.eqb_eq in E429. now constructor.
Qed.

(** C3, amended: when the sleeps of the call are ones [time.sleep]
    accepts, the call sleeps [default_sleep] once, first of all, and no
    later event is a throttle sleep; every attempt has a sleep of its own
    before it, and every retry comes directly after the warning and the
    back-off of exactly [retry_after / 1000] seconds announced by the 429
    that answered the attempt before. *)
Theorem request_throttles_once (self : Crawler.t) (method path : string)
    (params : list (string * Param)) (data : option string) (script : list Response) :
  well_timed self script ->
  let r := Crawler._request self method path params data script in
  exists evs,
    events r = Sleep Throttle (Crawler.default_sleep self) :: evs /\
    filter is_throttle evs = [] /\
    paced is_sleep false (events r) = true /\
    backed_off (request_of method path params data) script evs.
Proof.
  intros _. cbv zeta. unfold Crawler._request.
  fold (request_of method path params data).
  set (rq := request_of method path params data).
  pose proof (attempts_shape Crawler.RATE_LIMITED_RETRY rq script) as Hshape.
  apply attempts_trace_paced in Hshape. destruct Hshape as [Hp Ht].
  exists (events (Crawler.attempts Crawler.RATE_LIMITED_RETRY rq script)).
  unfold bind, sleep, emit; cbn [result events rest app].
  cbn [paced is_attempt is_sleep orb].
  repeat split; try assumption. apply attempts_backed_off.
Qed.

Lemma request_throttles_once_witness :
  let self := Crawler.init "token" 1 in
  let script := [rate_limited 200 ""; sample_ok] in
  let rq := request_of "get" "/x" [] None in
  events (Crawler._request self "get" "/x" [] None script)
  = [ Sleep Throttle 1; Http rq;
      Log WARNING "Rate limited. We will sleep 200 ms, and retry it.";
      Sleep Backoff (inject_Z 200 / 1000)%Q; Http rq ] /\
  exists evs,
    events (Crawler._request self "get" "/x" [] None script)
    = Sleep Throttle (Crawler.default_sleep self) :: evs /\
    filter is_throttle evs = [] /\
    paced is_sleep false (events (Crawler._request self "get" "/x" [] None script)) = true /\
    backed_off rq script evs.
Proof.
  intros self script rq. split; [reflexivity|].
  apply (request_throttles_once self "get" "/x" [] None script).
  split.
  - unfold sleepable, Qle. cbn. lia.
  - apply Forall_cons; [|apply Forall_cons; [|apply Forall_nil]].
    + intros _ ra Hra. injection Hra as <-. unfold backs_off, sleepable, Qle. cbn. lia.
    + intros H429. discriminate H429.
Defined.

(** C8 as stated fails: for a 500 the error carries the code and the
    explanation, and not the body of the response. *)
Lemma server_error_drops_body :
  let res := {| status_code := 500; text := "upstream exploded"; body := BodyOther |} in
  exists message,
    result (Crawler._request (Crawler.init "token" 0) "get" "/x" [] None [res])
      = Fail (Raised (DiscordApiErrorExn message)) /\
    contains (text res) message = false.
Proof.
  eexists. split; reflexivity.
Qed.

Lemma attempts_skip_limits n rq (limits : list (Z * string)) s :
  let r := Crawler.attempts (List.length limits + n) rq (limited limits ++ s)%list in
  let r' := Crawler.attempts n rq s in
  result r = result r' /\
  events r = (retried rq limits ++ events r')%list /\
  rest r = rest r'.
Proof.
  cbv zeta. induction limits as [|[ra txt] limits IH].
  - repeat split.
  - destruct IH as (I1 & I2 & I3).
    cbn [List.length Nat.add limited retried flat_map map app fst snd]. run_step.
    cbn [rate_limited status_code body Crawler.lookup Crawler.HTTP_CODE_MESSAGES
         Crawler.key_eqb Z.eqb Pos.eqb Z.leb Z.ltb Z.compare Pos.compare Pos.compare_cont
         andb Crawler.json_retry_after].
    run_step.
    fold (limited limits). fold (retried rq limits).
    repeat split; try assumption.
    now rewrite I2.
Qed.

Lemma attempts_made_retried rq limits evs :
  attempts_made (retried rq limits ++ evs)%list
  = (List.length limits + attempts_made evs)%nat.
Proof.
  unfold attempts_made.
  induction limits as [|l limits IH]; [reflexivity|].
  cbn [retried flat_map app filter is_attempt List.length Nat.add].
  fold (retried rq limits). now rewrite IH.
Qed.

Lemma canned_unlisted c :
  existsb (Z.eqb c) [400; 401; 403; 404; 405; 502] = false ->
  canned c = "The server had an error processing your request.".
Proof.
  cbn [existsb]. intros H. unfold canned.
  repeat (apply orb_false_elim in H; destruct H as [-> H]).
  reflexivity.
Qed.

Lemma attempts_terminal n rq res tail :
  terminal (status_code res) ->
  Crawler.attempts (S n) rq (res :: tail)
  = mkRun (Fail (Raised (DiscordApiErrorExn
             ("[HTTP code: " ++ str_of_int (status_code res) ++ "] "
                ++ canned (status_code res)
                ++ (if existsb (Z.eqb (status_code res)) [400; 401; 403; 404; 405; 502]
                    then newline ++ text res else "")))))
      [Http rq] tail.
Proof.
  intros H.
  destruct (existsb (Z.eqb (status_code res)) [400; 401; 403; 404; 405; 502]) eqn:L.
  - assert (Hin : In (status_code res) [400; 401; 403; 404; 405; 502]).
    { apply existsb_exists in L. destruct L as [x [Hx Heq]].
      apply Z.eqb_eq in Heq. now subst x. }
    clear H L. destruct res as [c t b]. cbn [status_code text] in *.
    cbn [In] in Hin.
    repeat (destruct Hin as [<-|Hin]; [reflexivity|]).
    destruct Hin.
  - destruct H as [H|H].
    { exfalso. assert (existsb (Z.eqb (status_code res)) [400; 401; 403; 404; 405; 502] = true).
      { apply existsb_exists. exists (status_code res). split; [exact H|apply Z.eqb_refl]. }
      congruence. }
    rewrite (canned_unlisted _ L).
    run_step. rewrite (lookup_unlisted _ L).
    replace ((500 <=? status_code res) && (status_code res <? 600))%bool with true
      by (symmetry; apply andb_true_intro; split; [apply Z.leb_le|apply Z.ltb_lt]; lia).
    run_step. unfold DiscordApiError.
    replace (0 <? status_code res) with true by (symmetry; apply Z.ltb_lt; lia).
    rewrite append_nil_r. cbn [append]. now rewrite !append_assoc.
Qed.

(** C8, amended: a response with a listed status or a 5xx status fails
    the call at the attempt it answers, the first or a retry after 429
    responses whose back-off [time.sleep] accepts: the message is the code
    followed by the explanation of [HTTP_CODE_MESSAGES] for that status (the
    one under ['5xx'] when the status is not listed), the body of the
    response follows only for a listed status, and the attempt is the last
    event of the call. *)
Theorem request_terminal_status (self : Crawler.t) (method path : string)
    (params : list (string * Param)) (data : option string)
    (limits : list (Z * string)) (res : Response) (tail : list Response) :
  sleepable (Crawler.default_sleep self) ->
  Forall (fun l => backs_off (fst l)) limits ->
  (List.length limits < 5)%nat ->
  In (status_code res) [400; 401; 403; 404; 405; 502] \/ 500 <= status_code res < 600 ->
  let rq := request_of method path params data in
  let r := Crawler._request self method path params data
             (limited limits ++ res :: tail)%list in
  let listed := existsb (Z.eqb (status_code res)) [400; 401; 403; 404; 405; 502] in
  result r = Fail (Raised (DiscordApiErrorExn
               ("[HTTP code: " ++ str_of_int (status_code res) ++ "] "
                  ++ canned (status_code res)
                  ++ (if listed then newline ++ text res else "")))) /\
  events r = (Sleep Throttle (Crawler.default_sleep self)
                :: retried rq limits ++ [Http rq])%list /\
  attempts_made (events r) = S (List.length limits) /\
  rest r = tail.
Proof.
  intros _ _ Hn Ht. cbv zeta. unfold Crawler._request.
  fold (request_of method path params data).
  set (rq := request_of method path params data).
  replace Crawler.RATE_LIMITED_RETRY
    with (List.length limits + S (4 - List.length limits))%nat
    by (unfold Crawler.RATE_LIMITED_RETRY; lia).
  destruct (attempts_skip_limits (S (4 - List.length limits)) rq limits (res :: tail))
    as (H1 & H2 & H3).
  rewrite (attempts_terminal _ rq res tail Ht) in H1, H2, H3.
  cbn [result events rest] in H1, H2, H3.
  unfold bind, sleep, emit. cbn [result events rest app].
  rewrite H1, H2, H3. cbn [result events rest].
  repeat split.
  unfold attempts_made. cbn [filter is_attempt List.length]. f_equal.
  fold (attempts_made (retried rq limits ++ [Http rq])).
  rewrite attempts_made_retried. cbn. lia.
Qed.

Lemma request_terminal_status_witness :
  let self := Crawler.init "token" 0 in
  let res := {| status_code := 503; text := "upstream exploded"; body := BodyOther |} in
  let rq := request_of "get" "/x" [] None in
  let r := Crawler._request self "get" "/x" [] None [rate_limited 200 "{}"; res] in
  result r = Fail (Raised (DiscordApiErrorExn
               "[HTTP code: 503] The server had an error processing your request.")) /\
  events r = [ Sleep Throttle 0; Http rq;
               Log WARNING "Rate limited. We will sleep 200 ms, and retry it.";
               Sleep Backoff (inject_Z 200 / 1000)%Q; Http rq ] /\
  attempts_made (events r) = 2%nat /\
  rest r = [].
Proof.
  apply (request_terminal_status (Crawler.init "token" 0) "get" "/x" [] None
           [(200, "{}")] {| status_code := 503; text := "upstream exploded"; body := BodyOther |} []).
  - unfold sleepable, Qle. cbn. lia.
  - apply Forall_cons; [|apply Forall_nil].
    unfold backs_off, sleepable, Qle. cbn. lia.
  - cbn. lia.
  - right. cbn. lia.
Defined.

(** ** Sequencing *)

Lemma run_eta {A} (r : Run A) : mkRun (result r) (events r) (rest r) = r.
Proof. now destruct r. Qed.

Lemma bind_ok {A B} (m : M A) (k : A -> M B) s a :
  result (m s) = Ok a ->
  bind m k s = mkRun (result (k a (rest (m s))))
                     (events (m s) ++ events (k a (rest (m s))))
                     (rest (k a (rest (m s)))).
Proof. unfold bind. now intros ->. Qed.

Lemma bind_fail {A B} (m : M A) (k : A -> M B) s f :
  result (m s) = Fail f ->
  bind m k s = mkRun (Fail f) (events (m s)) (rest (m s)).
Proof. unfold bind. now intros ->. Qed.

Lemma bind_lift_ok {A B} (a : A) (k : A -> M B) s :
  bind (lift (Ok a)) k s = k a s.
Proof. unfold bind, lift; cbn. apply run_eta. Qed.

Lemma bind_lift_fail {A B} f (k : A -> M B) s :
  bind (lift (Fail f)) k s = mkRun (Fail f) [] s.
Proof. reflexivity. Qed.

Lemma bind_ret {A B} (a : A) (k : A -> M B) s : bind (ret a) k s = k a s.
Proof. apply (bind_lift_ok a k s). Qed.

Lemma yields_app a b : yields (a ++ b) = (yields a ++ yields b)%list.
Proof.
  induction a as [|e a IH]; [reflexivity|].
  destruct e; cbn [app yields]; now rewrite ?IH.
Qed.

(** ** The search paginator *)

Lemma request_yields self method path params data s :
  yields (events (Crawler._request self method path params data s)) = [].
Proof.
  unfold Crawler._request.
  set (rq := Build_Request _ _ _ _).
  pose proof (attempts_trace_yields _ _ (attempts_shape Crawler.RATE_LIMITED_RETRY rq s)) as H.
  unfold bind, sleep, emit; cbn [result events rest app yields]. exact H.
Qed.

Lemma search_request_yields g s : yields (events (Crawler.search_request g s)) = [].
Proof. unfold Crawler.search_request. apply request_yields. Qed.

Lemma index_last_In {A} (l : list A) (a : A) : Crawler.index_last l = Ok a -> In a l.
Proof.
  unfold Crawler.index_last. intros H.
  apply in_rev. destruct (rev l) as [|x l']; [discriminate|].
  injection H as ->. now left.
Qed.

Lemma resumed_prefix bound g evs r :
  yields evs = [] ->
  resumed bound g r ->
  resumed bound g (mkRun (result r) (evs ++ events r) (rest r)).
Proof.
  unfold resumed. cbn [result events]. rewrite yields_app. intros ->.
  exact (fun H => H).
Qed.

Lemma resumed_same_bounds bound g g' r :
  Crawler.oldest_message_id g' = Crawler.oldest_message_id g ->
  Crawler.total_results_size g' = Crawler.total_results_size g ->
  resumed bound g' r -> resumed bound g r.
Proof.
  unfold resumed. intros -> ->. exact (fun H => H).
Qed.

Lemma sweep_resumed fuel bound g s :
  Crawler.newest_message_id g <= bound ->
  resumed bound g (Crawler.sweep fuel g s).
Proof.
  revert g s. induction fuel as [|fuel IH]; intros g s Hb.
  - exact eq_refl.
  - cbn [Crawler.sweep].
    destruct (result (Crawler.search_request g s)) as [res|f] eqn:Ereq.
    2:{ rewrite (bind_fail _ _ _ _ Ereq). unfold resumed; cbn [result events].
        apply search_request_yields. }
    rewrite (bind_ok _ _ _ _ Ereq).
    apply resumed_prefix; [apply search_request_yields|].
    generalize (rest (Crawler.search_request g s)). clear s Ereq. intros s.
    destruct (Crawler.json_search res) as [page|f];
      [rewrite bind_lift_ok | exact eq_refl].
    destruct (Crawler.extract_hits (snd page)) as [hits|f];
      [rewrite bind_lift_ok | exact eq_refl].
    destruct hits as [|first hits].
    { cbn. split; reflexivity. }
    replace (Z.of_nat (List.length (first :: hits)) =? 0) with false by reflexivity.
    rewrite (bind_ok _ _ s (id first <? Crawler.oldest_message_id g)) by reflexivity.
    cbn [bind lift ret result events rest app Crawler.index nth_error].
    destruct (id first <? Crawler.oldest_message_id g).
    { cbn. split; reflexivity. }
    destruct (filter (Crawler.in_range g) (first :: hits)) as [|m batch] eqn:Ef.
    { cbn [List.length Z.of_nat Z.eqb].
      eapply resumed_same_bounds; [| |apply IH]; try reflexivity. exact Hb. }
    replace (Z.of_nat (List.length (m :: batch)) =? 0) with false by reflexivity.
    unfold resumed, emit, bind, ret.
    cbn [result events rest app yields Crawler.total_results_size
         Crawler.set_total_results_size Crawler.set_pc Crawler.oldest_message_id].
    repeat split; try discriminate.
    + rewrite <- Ef. apply Forall_forall. intros x Hx.
      apply filter_In in Hx. destruct Hx as [_ Hx].
      unfold Crawler.in_range in Hx. apply andb_prop in Hx.
      destruct Hx as [H1 H2]. apply Z.leb_le in H1, H2. lia.
    + unfold cursor_le. cbn [Crawler.pc]. intros last Hlast.
      apply index_last_In in Hlast. rewrite <- Ef in Hlast.
      apply filter_In in Hlast. destruct Hlast as [_ Hx].
      unfold Crawler.in_range in Hx. apply andb_prop in Hx.
      destruct Hx as [_ H2]. apply Z.leb_le in H2.
      cbn [Crawler.newest_message_id] in H2. lia.
Qed.

Lemma next_resumed fuel bound g s :
  cursor_le bound g ->
  resumed bound g (Crawler.next fuel g s).
Proof.
  unfold cursor_le, Crawler.next. intros Hc.
  destruct (Crawler.pc g) as [|messages|] eqn:Epc.
  - destruct (existsb _ _); [|exact eq_refl].
    eapply resumed_same_bounds; [| |apply sweep_resumed]; try reflexivity.
    exact Hc.
  - destruct (Crawler.index_last messages) as [last|f];
      [rewrite bind_lift_ok | exact eq_refl].
    eapply resumed_same_bounds; [| |apply sweep_resumed]; try reflexivity.
    cbn [Crawler.set_newest_message_id Crawler.newest_message_id]. now apply Hc.
  - unfold resumed, ret; cbn [result events yields]. now split.
Qed.

(** Any generator has some bound on its cursor. *)
Lemma cursor_bounded g : exists bound, cursor_le bound g.
Proof.
  unfold cursor_le. destruct (Crawler.pc g) as [|messages|].
  - exists (Crawler.newest_message_id g). lia.
  - destruct (Crawler.index_last messages) as [last|f].
    + exists (id last - 1). intros last' H. injection H as <-. lia.
    + exists 0. intros last' H. discriminate.
  - now exists 0.
Qed.

Lemma for_each_resumed {St} fuel (body : Z * list Message -> St -> M St) bound g st s :
  (forall y st' s', yields (events (body y st' s')) = []) ->
  cursor_le bound g ->
  Forall (fun y => Forall (fun m => Crawler.oldest_message_id g <= id m <= bound) (snd y))
         (yields (events (Crawler.for_each fuel body g st s))) /\
  running_from (Crawler.total_results_size g)
               (yields (events (Crawler.for_each fuel body g st s))).
Proof.
  intros Hbody. revert g st s.
  induction fuel as [|fuel IH]; intros g st s Hc.
  - cbn. split; [constructor | exact I].
  - cbn [Crawler.for_each].
    pose proof (next_resumed (S fuel) bound g s Hc) as Hn. unfold resumed in Hn.
    destruct (result (Crawler.next (S fuel) g s)) as [[[[total batch]|] g']|f] eqn:En.
    + destruct Hn as (Hy & _ & Hrange & Htotal & Hold & Htot' & Hc').
      rewrite (bind_ok _ _ _ _ En). cbn [events fst snd]. rewrite yields_app, Hy.
      generalize (rest (Crawler.next (S fuel) g s)). intros s1.
      destruct (result (body (total, batch) st s1)) as [st1|f] eqn:Eb.
      * rewrite (bind_ok _ _ _ _ Eb). cbn [events]. rewrite yields_app, Hbody.
        destruct (IH g' st1 (rest (body (total, batch) st s1)) Hc') as [IH1 IH2].
        rewrite Hold, Htot' in *. cbn [app].
        split; [constructor; assumption | cbn; split; assumption].
      * rewrite (bind_fail _ _ _ _ Eb). cbn [events]. rewrite Hbody. cbn [app].
        split; [repeat constructor; assumption | cbn; split; [assumption | exact I]].
    + destruct Hn as [Hy _].
      rewrite (bind_ok _ _ _ _ En). cbn [events fst snd ret app].
      rewrite app_nil_r, Hy. split; [constructor | exact I].
    + rewrite (bind_fail _ _ _ _ En). cbn [events]. rewrite Hn.
      split; [constructor | exact I].
Qed.

(** Once the generator has returned, the loop over it ends at once. *)
Lemma for_each_finished {St} fuel (body : Z * list Message -> St -> M St) g st s :
  Crawler.pc g = Crawler.Finished ->
  events (Crawler.for_each fuel body g st s) = [].
Proof.
  intros Hpc. destruct fuel as [|fuel]; [reflexivity|].
  cbn [Crawler.for_each]. unfold Crawler.next. rewrite Hpc.
  rewrite bind_ret. reflexivity.
Qed.

Lemma sweep_stops fuel g s res total blocks hits :
  result (Crawler.search_request g s) = Ok (Some res) ->
  body res = BodySearch total blocks ->
  Crawler.extract_hits blocks = Ok hits ->
  hits = [] \/ (exists first others, hits = first :: others /\
                                     id first < Crawler.oldest_message_id g) ->
  Crawler.sweep (S fuel) g s
  = mkRun (Ok (None, Crawler.set_pc g Crawler.Finished))
          (events (Crawler.search_request g s))
          (rest (Crawler.search_request g s)).
Proof.
  intros Hreq Hbody Hhits Hstop.
  cbn [Crawler.sweep]. rewrite (bind_ok _ _ _ _ Hreq).
  unfold Crawler.json_search. rewrite Hbody, bind_lift_ok. cbn [snd].
  rewrite Hhits, bind_lift_ok.
  destruct Hstop as [->|(first & others & -> & Hlt)].
  - cbn. now rewrite app_nil_r.
  - replace (Z.of_nat (List.length (first :: others)) =? 0) with false by reflexivity.
    cbn [bind lift ret result events rest app Crawler.index nth_error].
    replace (id first <? Crawler.oldest_message_id g) with true
      by (symmetry; now apply Z.ltb_lt).
    now rewrite app_nil_r.
Qed.

Lemma extract_hits_fails blocks :
  Exists (fun block => filter Crawler.is_hit block = []) blocks ->
  Crawler.extract_hits blocks = Fail (Raised IndexError).
Proof.
  induction 1 as [block blocks Hnone|block blocks _ IH]; cbn [Crawler.extract_hits].
  - now rewrite Hnone.
  - rewrite IH. unfold Crawler.index.
    now destruct (nth_error (filter Crawler.is_hit block) 0).
Qed.

Lemma keep_yields y acc s : yields (events (Crawler.keep y acc s)) = [].
Proof. reflexivity. Qed.

(** C1: whatever the remote search answers, and whatever the consumer of
    the generator does with a batch, every message of every yielded batch
    has its id between the two bounds the generator was created with. *)
Theorem yielded_ids_within_bounds {St} (body : Z * list Message -> St -> M St)
    (self : Crawler.t) (room_id : Z) (room_type : string)
    (author_id oldest_message_id newest_message_id : Z)
    (st : St) (fuel : nat) (script : list Response) :
  (forall y st' s', yields (events (body y st' s')) = []) ->
  Forall (fun y => Forall (fun m => oldest_message_id <= id m <= newest_message_id) (snd y))
    (yields (events (Crawler.for_each fuel body
                       (Crawler.search_messages_by_author_id self room_id room_type
                          author_id oldest_message_id newest_message_id)
                       st script))).
Proof.
  intros Hbody.
  apply (for_each_resumed fuel body newest_message_id
           (Crawler.search_messages_by_author_id self room_id room_type
              author_id oldest_message_id newest_message_id) st script Hbody).
  unfold cursor_le. cbn. lia.
Qed.

Lemma yielded_ids_within_bounds_witness :
  yields (events (Crawler.drain 4 sample_generator
                    [sample_page [250; 200; 150]; sample_page [100; 50]; sample_page [90]]))
  = [(2, [sample_hit 200; sample_hit 150]); (3, [sample_hit 100])] /\
  Forall (fun y => Forall (fun m => 100 <= id m <= 200) (snd y))
    (yields (events (Crawler.drain 4 sample_generator
                       [sample_page [250; 200; 150]; sample_page [100; 50];
                        sample_page [90]]))).
Proof.
  split; [reflexivity|].
  apply (yielded_ids_within_bounds Crawler.keep sample_crawler 9 "channel" 5 100 200 [] 4
           [sample_page [250; 200; 150]; sample_page [100; 50]; sample_page [90]]).
  intros y st' s'. reflexivity.
Defined.

(** C5: when the hits of a fetched page are none, or the first of them
    has an id below [oldest_message_id], the sweep ends with that fetch:
    nothing is yielded, the generator has returned and a loop over it does
    nothing more.  No yielded message has an id below [oldest_message_id]. *)
Theorem sweep_ends_at_floor (fuel : nat) (g : Crawler.Gen) (s : list Response)
    (res : Response) (total : Z) (blocks : list (list Message)) (hits : list Message) :
  result (Crawler.search_request g s) = Ok (Some res) ->
  body res = BodySearch total blocks ->
  Crawler.extract_hits blocks = Ok hits ->
  hits = [] \/ (exists first others, hits = first :: others /\
                                     id first < Crawler.oldest_message_id g) ->
  Crawler.sweep (S fuel) g s
  = mkRun (Ok (None, Crawler.set_pc g Crawler.Finished))
          (events (Crawler.search_request g s))
          (rest (Crawler.search_request g s)) /\
  yields (events (Crawler.sweep (S fuel) g s)) = [] /\
  (forall St fuel' (body : Z * list Message -> St -> M St) st s',
      events (Crawler.for_each fuel' body (Crawler.set_pc g Crawler.Finished) st s') = []) /\
  (forall fuel' s',
      Forall (fun y => Forall (fun m => Crawler.oldest_message_id g <= id m) (snd y))
        (yields (events (Crawler.drain fuel' g s')))).
Proof.
  intros Hreq Hbody Hhits Hstop.
  pose proof (sweep_stops fuel g s res total blocks hits Hreq Hbody Hhits Hstop) as Hs.
  split; [exact Hs|]. split; [|split].
  - rewrite Hs. cbn [events]. apply search_request_yields.
  - intros St fuel' body st s'. now apply for_each_finished.
  - intros fuel' s'. destruct (cursor_bounded g) as [bound Hc].
    destruct (for_each_resumed fuel' Crawler.keep bound g [] s' keep_yields Hc) as [H _].
    unfold Crawler.drain. revert H. apply Forall_impl. intros y.
    apply Forall_impl. intros m. lia.
Qed.

Lemma sweep_ends_at_floor_witness :
  Crawler.sweep 1 sample_generator [sample_page [90; 80]]
  = mkRun (Ok (None, Crawler.set_pc sample_generator Crawler.Finished))
          (events (Crawler.search_request sample_generator [sample_page [90; 80]]))
          [].
Proof.
  apply (sweep_ends_at_floor 0 sample_generator [sample_page [90; 80]]
           (sample_page [90; 80]) 2
           [[sample_context 91; sample_hit 90]; [sample_context 81; sample_hit 80]]
           [sample_hit 90; sample_hit 80]); try reflexivity.
  right. exists (sample_hit 90), [sample_hit 80]. split; [reflexivity | cbn; lia].
Defined.

Lemma sizes_sum_nonneg ys : 0 <= sizes_sum ys.
Proof. induction ys as [|y ys IH]; cbn [sizes_sum]; lia. Qed.

Lemma sizes_sum_firstn_mono ys i j :
  (i <= j)%nat -> sizes_sum (firstn i ys) <= sizes_sum (firstn j ys).
Proof.
  revert i j. induction ys as [|y ys IH]; intros i j Hij.
  - rewrite !firstn_nil. lia.
  - destruct i as [|i]; destruct j as [|j]; cbn [firstn sizes_sum]; try lia.
    + pose proof (sizes_sum_nonneg (firstn j ys)). lia.
    + specialize (IH i j). lia.
Qed.

Lemma running_from_nth acc ys k :
  running_from acc ys ->
  match nth_error ys k with
  | Some y => fst y = acc + sizes_sum (firstn (S k) ys)
  | None => True
  end.
Proof.
  revert acc k. induction ys as [|y ys IH]; intros acc k Hrun.
  - now destruct k.
  - destruct Hrun as [Hy Hrun]. destruct k as [|k].
    + cbn [nth_error firstn sizes_sum]. lia.
    + specialize (IH (fst y) k Hrun). cbn [nth_error].
      destruct (nth_error ys k) as [y'|]; [|exact I].
      rewrite IH. change (firstn (S (S k)) (y :: ys)) with (y :: firstn (S k) ys).
      cbn [sizes_sum]. lia.
Qed.

(** C6: the running totals of the yielded pairs never decrease, and each
    is the sum of the sizes of the batches yielded up to and including
    its own. *)
Theorem running_total_is_running_sum {St} (body : Z * list Message -> St -> M St)
    (self : Crawler.t) (room_id : Z) (room_type : string)
    (author_id oldest_message_id newest_message_id : Z)
    (st : St) (fuel : nat) (script : list Response) :
  (forall y st' s', yields (events (body y st' s')) = []) ->
  let ys := yields (events (Crawler.for_each fuel body
                              (Crawler.search_messages_by_author_id self room_id room_type
                                 author_id oldest_message_id newest_message_id)
                              st script)) in
  (forall k, match nth_error ys k with
             | Some y => fst y = sizes_sum (firstn (S k) ys)
             | None => True
             end) /\
  (forall i j, (i <= j)%nat ->
               match nth_error ys i, nth_error ys j with
               | Some yi, Some yj => fst yi <= fst yj
               | _, _ => True
               end).
Proof.
  intros Hbody ys.
  assert (Hrun : running_from 0 ys).
  { apply (for_each_resumed fuel body newest_message_id
             (Crawler.search_messages_by_author_id self room_id room_type
                author_id oldest_message_id newest_message_id) st script Hbody).
    unfold cursor_le. cbn. lia. }
  split.
  - intros k. pose proof (running_from_nth 0 ys k Hrun) as H.
    destruct (nth_error ys k); [lia | exact I].
  - intros i j Hij.
    pose proof (running_from_nth 0 ys i Hrun) as Hi.
    pose proof (running_from_nth 0 ys j Hrun) as Hj.
    destruct (nth_error ys i); [|exact I].
    destruct (nth_error ys j); [|exact I].
    pose proof (sizes_sum_firstn_mono ys (S i) (S j)). lia.
Qed.

Lemma running_total_is_running_sum_witness :
  let ys := yields (events (Crawler.drain 4 sample_generator
                              [sample_page [250; 200; 150]; sample_page [100; 50];
                               sample_page [90]])) in
  map fst ys = [2; 3] /\
  (forall k, match nth_error ys k with
             | Some y => fst y = sizes_sum (firstn (S k) ys)
             | None => True
             end) /\
  (forall i j, (i <= j)%nat ->
               match nth_error ys i, nth_error ys j with
               | Some yi, Some yj => fst yi <= fst yj
               | _, _ => True
               end).
Proof.
  split; [reflexivity|].
  apply (running_total_is_running_sum Crawler.keep sample_crawler 9 "channel" 5 100 200 [] 4
           [sample_page [250; 200; 150]; sample_page [100; 50]; sample_page [90]]).
  intros y st' s'. reflexivity.
Defined.

(** C10: a page with a block that holds no message flagged as a hit makes
    the extraction raise [IndexError]; the sweep raises it on that page and
    yields nothing. *)
Theorem block_without_hit_raises (fuel : nat) (g : Crawler.Gen) (s : list Response)
    (res : Response) (total : Z) (blocks : list (list Message)) :
  result (Crawler.search_request g s) = Ok (Some res) ->
  body res = BodySearch total blocks ->
  Exists (fun block => filter Crawler.is_hit block = []) blocks ->
  Crawler.extract_hits blocks = Fail (Raised IndexError) /\
  Crawler.sweep (S fuel) g s
  = mkRun (Fail (Raised IndexError))
          (events (Crawler.search_request g s))
          (rest (Crawler.search_request g s)) /\
  yields (events (Crawler.sweep (S fuel) g s)) = [].
Proof.
  intros Hreq Hbody Hnone.
  pose proof (extract_hits_fails blocks Hnone) as Hx.
  assert (Hs : Crawler.sweep (S fuel) g s
               = mkRun (Fail (Raised IndexError))
                       (events (Crawler.search_request g s))
                       (rest (Crawler.search_request g s))).
  { cbn [Crawler.sweep]. rewrite (bind_ok _ _ _ _ Hreq).
    unfold Crawler.json_search. rewrite Hbody, bind_lift_ok. cbn [snd].
    rewrite Hx, bind_lift_fail. cbn [result events rest]. now rewrite app_nil_r. }
  split; [exact Hx|]. split; [exact Hs|].
  rewrite Hs. cbn [events]. apply search_request_yields.
Qed.

Lemma block_without_hit_raises_witness :
  let page := {| status_code := 200; text := "";
                 body := BodySearch 2 [[sample_hit 150]; [sample_context 120]] |} in
  result (Crawler.sweep 1 sample_generator [page]) = Fail (Raised IndexError).
Proof.
  intros page.
  destruct (block_without_hit_raises 0 sample_generator [page] page 2
              [[sample_hit 150]; [sample_context 120]]) as (_ & Hs & _);
    try reflexivity.
  right. left. reflexivity.
Defined.

(** ** The orchestrator *)

Lemma calls_app m a b : calls m (a ++ b) = (calls m a ++ calls m b)%list.
Proof. apply filter_app. Qed.

Lemma attempts_trace_calls rq evs m :
  attempts_trace rq evs -> String.eqb (method rq) m = false -> calls m evs = [].
Proof.
  intros H Hm. induction H as [msg| |msg q evs _ IH]; cbn [calls filter]; rewrite ?Hm; auto.
Qed.

Lemma request_calls self method path params data s m :
  String.eqb method m = false ->
  calls m (events (Crawler._request self method path params data s)) = [].
Proof.
  intros Hm. unfold Crawler._request.
  set (rq := Build_Request _ _ _ _).
  pose proof (attempts_trace_calls rq _ m (attempts_shape Crawler.RATE_LIMITED_RETRY rq s) Hm) as H.
  unfold bind, sleep, emit; cbn [result events rest app]. exact H.
Qed.

Lemma modify_calls_delete self channel_id message_id replace_to s :
  calls "delete"
    (events (Crawler.modify_channel_message_by_message_id self channel_id message_id
               replace_to s)) = [].
Proof.
  unfold Crawler.modify_channel_message_by_message_id, try_except_DiscordApiError.
  match goal with |- context [bind ?m ?k s] => set (rq := m); set (kk := k) end.
  assert (Hrq : calls "delete" (events (rq s)) = []) by (apply request_calls; reflexivity).
  unfold bind. cbv zeta.
  destruct (result (rq s)) as [res|[e| |]]; cbn [result events rest kk ret app];
    rewrite ?app_nil_r; try exact Hrq.
  destruct e; cbn [result events rest]; try exact Hrq.
  rewrite calls_app, Hrq. reflexivity.
Qed.


Lemma process_message_replacing (entropy : nat -> nat) (crawler : Crawler.t)
    (replace_before_delete : string) (m : Message) (st : Locals) :
  String.eqb replace_before_delete "none" = false ->
  exists st2,
    replace_to st2
    = (if String.eqb replace_before_delete "random"
       then Some (fst (generate_random entropy (drawn st) 5 30 default_chars))
       else replace_to st) /\
    failed_count st2 = failed_count st /\
    process_message entropy crawler replace_before_delete m st
    = bind (bind (Crawler.modify_channel_message_by_message_id crawler (channel_id m) (id m)
                    (replace_to st2))
                 (fun is_success => ret (is_success, st2)))
           (fun r => if fst r
                     then deleted <- Crawler.delete_channel_message_by_message_id
                                       crawler (channel_id m) (id m) ;;
                          if negb deleted then ret (count_failure (snd r))
                          else ret (snd r)
                     else ret (count_failure (snd r))).
Proof.
  intros Hmode. unfold process_message, replace_step. rewrite Hmode. cbn [negb].
  set (st1 := if newest_message_id (set_message st m) =? 0 then _ else _).
  assert (H1 : replace_to st1 = replace_to st /\ drawn st1 = drawn st
                /\ failed_count st1 = failed_count st).
  { subst st1. destruct (_ =? 0);
      cbn [replace_to drawn failed_count set_message see_first]; auto. }
  clearbody st1. destruct H1 as (Hrt & Hdr & Hfc). rewrite Hdr.
  generalize (generate_random entropy (drawn st) 5 30 default_chars). intros gr.
  destruct (String.eqb replace_before_delete "random").
  - exists (set_replace_to st1 (fst gr) (snd gr)).
    split; [reflexivity|]. split; [exact Hfc|]. reflexivity.
  - exists st1. split; [exact Hrt|]. split; [exact Hfc|]. reflexivity.
Qed.


(** The replace step followed by the guarded delete, for any two calls. *)
Lemma guarded_delete_run (rep del : M bool) (st2 : Locals) (s : list Response) :
  let r := bind (bind rep (fun is_success => ret (is_success, st2)))
                (fun r => if fst r
                          then deleted <- del ;;
                               if negb deleted then ret (count_failure (snd r))
                               else ret (snd r)
                          else ret (count_failure (snd r))) s in
  match result (rep s) with
  | Ok true => events r = (events (rep s) ++ events (del (rest (rep s))))%list
  | Ok false =>
      events r = events (rep s) /\
      exists st', result r = Ok st' /\ failed_count st' = failed_count st2 + 1
  | Fail f => events r = events (rep s) /\ result r = Fail f
  end.
Proof.
  cbv zeta.
  destruct (result (rep s)) as [b|f] eqn:E.
  - assert (Ein : bind rep (fun is_success => ret (is_success, st2)) s
                  = mkRun (Ok (b, st2)) (events (rep s)) (rest (rep s))).
    { rewrite (bind_ok _ _ _ _ E). cbn [ret result events rest]. now rewrite app_nil_r. }
    rewrite (bind_ok _ _ s (b, st2)) by now rewrite Ein.
    rewrite Ein. cbn [result events rest fst snd].
    destruct b.
    + cbn [events]. f_equal.
      unfold bind. cbv zeta.
      destruct (result (del (rest (rep s)))) as [[|]|f'];
        cbn [negb result events ret]; now rewrite ?app_nil_r.
    + cbn [ret result events]. rewrite app_nil_r. split; [reflexivity|].
      eexists; split; [reflexivity|]. cbn [failed_count count_failure]. lia.
  - assert (Ein : bind rep (fun is_success => ret (is_success, st2)) s
                  = mkRun (Fail f) (events (rep s)) (rest (rep s))).
    { now rewrite (bind_fail _ _ _ _ E). }
    rewrite (bind_fail _ _ s f) by now rewrite Ein.
    rewrite Ein. split; reflexivity.
Qed.

(** C4: with a replace mode other than [none], the events of one message
    are those of its replace call, followed by those of its delete call
    only when the replace call returned [True].  The replace call makes no
    delete request; when it returns [False] nothing follows it and the
    failure count goes up by one. *)
Theorem delete_follows_successful_replace (entropy : nat -> nat) (crawler : Crawler.t)
    (replace_before_delete : string) (m : Message) (st : Locals) (s : list Response) :
  replace_before_delete <> "none" ->
  let text :=
    if String.eqb replace_before_delete "random"
    then Some (fst (generate_random entropy (drawn st) 5 30 default_chars))
    else replace_to st in
  let rep := Crawler.modify_channel_message_by_message_id crawler (channel_id m) (id m)
               text s in
  let del := Crawler.delete_channel_message_by_message_id crawler (channel_id m) (id m)
               (rest rep) in
  let r := process_message entropy crawler replace_before_delete m st s in
  calls "delete" (events rep) = [] /\
  match result rep with
  | Ok true => events r = (events rep ++ events del)%list
  | Ok false =>
      events r = events rep /\
      exists st', result r = Ok st' /\ failed_count st' = failed_count st + 1
  | Fail f => events r = events rep /\ result r = Fail f
  end.
Proof.
  intros Hmode. apply String.eqb_neq in Hmode. cbv zeta.
  split; [apply modify_calls_delete|].
  destruct (process_message_replacing entropy crawler replace_before_delete m st Hmode)
    as (st2 & Hrt & Hfc & Heq).
  rewrite Heq, <- Hrt, <- Hfc.
  apply (guarded_delete_run
           (Crawler.modify_channel_message_by_message_id crawler (channel_id m) (id m)
              (replace_to st2))
           (Crawler.delete_channel_message_by_message_id crawler (channel_id m) (id m))
           st2 s).
Qed.

Lemma search_request_calls g s m :
  String.eqb "get" m = false -> calls m (events (Crawler.search_request g s)) = [].
Proof. intros Hm. unfold Crawler.search_request. now apply request_calls. Qed.

Lemma for_each_stops_at_once {St} fuel (consume : Z * list Message -> St -> M St)
    (g : Crawler.Gen) (st : St) (s : list Response) res total blocks :
  let g1 := Crawler.set_room_type g (lower (Crawler.room_type g) ++ "s") in
  Crawler.pc g = Crawler.AtStart ->
  existsb (String.eqb (lower (Crawler.room_type g))) ["channel"; "guild"] = true ->
  result (Crawler.search_request g1 s) = Ok (Some res) ->
  body res = BodySearch total blocks ->
  Crawler.extract_hits blocks = Ok [] ->
  Crawler.for_each (S fuel) consume g st s
  = mkRun (Ok st) (events (Crawler.search_request g1 s)) (rest (Crawler.search_request g1 s)).
Proof.
  intros g1 Hpc Hroom Hreq Hbody Hhits.
  assert (Hnext : Crawler.next (S fuel) g s
                  = mkRun (Ok (None, Crawler.set_pc g1 Crawler.Finished))
                          (events (Crawler.search_request g1 s))
                          (rest (Crawler.search_request g1 s))).
  { unfold Crawler.next. rewrite Hpc, Hroom.
    apply (sweep_stops fuel g1 s res total blocks [] Hreq Hbody Hhits). now left. }
  cbn [Crawler.for_each].
  rewrite (bind_ok _ _ s (None, Crawler.set_pc g1 Crawler.Finished)) by now rewrite Hnext.
  rewrite Hnext. cbn [result events rest fst ret]. now rewrite app_nil_r.
Qed.

(** C9: when the first search page holds no hit, the generator yields
    nothing, [main] ends with [total_results_size] 0 after logging that
    there are no messages, and it makes no patch and no delete request. *)
Theorem empty_history_reports_nothing (entropy : nat -> nat) (token token_type : string)
    (room_id : Z) (room_type : string) (author_id newest_message_id oldest_message_id : Z)
    (replace_before_delete : string) (replace_to : option string) (default_sleep : Q)
    (fuel : nat) (script : list Response)
    (res : Response) (total : Z) (blocks : list (list Message)) :
  let crawler :=
    Crawler.init (if negb (String.eqb token_type "User")
                  then token_type ++ " " ++ token else token) default_sleep in
  let g := Crawler.search_messages_by_author_id crawler room_id room_type author_id
             oldest_message_id newest_message_id in
  let first_request :=
    Crawler.search_request (Crawler.set_room_type g (lower room_type ++ "s")) script in
  existsb (String.eqb (lower room_type)) ["channel"; "guild"] = true ->
  result first_request = Ok (Some res) ->
  body res = BodySearch total blocks ->
  Crawler.extract_hits blocks = Ok [] ->
  let r := main entropy token token_type room_id room_type author_id newest_message_id
             oldest_message_id replace_before_delete replace_to default_sleep script in
  result (Crawler.drain (S fuel) g script) = Ok [] /\
  yields (events (Crawler.drain (S fuel) g script)) = [] /\
  (exists st, result r = Ok st /\ total_results_size st = 0) /\
  events r = (Log INFO "Started!" :: events first_request
                ++ [Log INFO ""; Log INFO "There are no messages to bulky delete..."])%list /\
  yields (events r) = [] /\
  calls "patch" (events r) = [] /\
  calls "delete" (events r) = [].
Proof.
  intros crawler g first_request Hroom Hreq Hbody Hhits r.
  assert (Hloop : forall St n (consume : Z * list Message -> St -> M St) st,
             Crawler.for_each (S n) consume g st script
             = mkRun (Ok st) (events first_request) (rest first_request)).
  { intros St n consume st.
    apply (for_each_stops_at_once n consume g st script res total blocks);
      solve [reflexivity | assumption]. }
  assert (Hmain : r = mkRun (Ok (mkLocals 0 None 0 0 None replace_to 0))
                        (Log INFO "Started!" :: events first_request
                           ++ [Log INFO "";
                               Log INFO "There are no messages to bulky delete..."])
                        (rest first_request)).
  { subst r. unfold main. fold crawler. fold g.
    set (st0 := mkLocals 0 None 0 0 None replace_to 0).
    set (loop := Crawler.for_each _ _ g st0).
    assert (Hl : loop script = mkRun (Ok st0) (events first_request) (rest first_request))
      by apply Hloop.
    assert (Hbody' : bind loop (fun st => report st) script
                     = mkRun (Ok st0)
                         (events first_request
                            ++ [Log INFO ""; Log INFO "There are no messages to bulky delete..."])
                         (rest first_request)).
    { rewrite (bind_ok _ _ script st0) by now rewrite Hl.
      rewrite Hl. reflexivity. }
    clearbody loop.
    unfold bind at 1. cbn [logging emit result events rest].
    unfold try_except_reraise. rewrite Hbody'. reflexivity. }
  assert (Hev : events r = (Log INFO "Started!" :: events first_request
                  ++ [Log INFO ""; Log INFO "There are no messages to bulky delete..."])%list
                /\ result r = Ok (mkLocals 0 None 0 0 None replace_to 0)).
  { rewrite Hmain. split; reflexivity. }
  clear Hmain. destruct Hev as [Hev Hres].
  unfold Crawler.drain. rewrite Hloop. cbn [result events].
  split; [reflexivity|]. split; [apply search_request_yields|].
  split; [exists (mkLocals 0 None 0 0 None replace_to 0); split; [exact Hres|reflexivity]|].
  split; [exact Hev|]. rewrite Hev.
  change (Log INFO "Started!" :: events first_request ++ ?l)%list
    with ([Log INFO "Started!"] ++ events first_request ++ l)%list.
  rewrite !yields_app, !calls_app.
  unfold first_request.
  rewrite search_request_yields, !search_request_calls by reflexivity.
  repeat split.
Qed.

Lemma delete_follows_successful_replace_witness :
  let forbidden := {| status_code := 403; text := "{}"; body := BodyOther |} in
  let st := mkLocals 0 None 1 0 None (Some "redacted") 0 in
  let r := process_message (fun _ => O) sample_crawler "fixed" (sample_hit 150) st
             [forbidden; sample_ok] in
  calls "delete" (events r) = [] /\
  exists st', result r = Ok st' /\ failed_count st' = 1.
Proof.
  intros forbidden st r.
  pose proof (delete_follows_successful_replace (fun _ => O) sample_crawler "fixed"
                (sample_hit 150) st [forbidden; sample_ok]
                ltac:(discriminate)) as H.
  destruct H as [Hcalls H].
  change (result (Crawler.modify_channel_message_by_message_id sample_crawler
                    (channel_id (sample_hit 150)) (id (sample_hit 150))
                    (if String.eqb "fixed" "random"
                     then Some (fst (generate_random (fun _ => O) (drawn st) 5 30
                                       default_chars))
                     else replace_to st)
                    [forbidden; sample_ok]))
    with (@Ok bool false) in H.
  destruct H as [Hev Hst]. fold r in Hev. rewrite Hev.
  split; [exact Hcalls | exact Hst].
Defined.

Lemma empty_history_reports_nothing_witness :
  let r := main (fun _ => O) "token" "User" 9 "channel" 5 200 100 "none" None 0
             [sample_page []] in
  (exists st, result r = Ok st /\ total_results_size st = 0) /\
  calls "patch" (events r) = [] /\
  calls "delete" (events r) = [].
Proof.
  intros r.
  pose proof (empty_history_reports_nothing (fun _ => O) "token" "User" 9 "channel" 5 200 100
                "none" None 0 0 [sample_page []] (sample_page []) 0 []
                eq_refl eq_refl eq_refl eq_refl) as H.
  destruct H as (_ & _ & Hst & _ & _ & Hpatch & Hdelete).
  split; [exact Hst|]. split; [exact Hpatch | exact Hdelete].
Defined.

(** ** Fuel *)

Lemma bind_settles {A B} (m : M A) (k : A -> M B) s :
  settles s (m s) ->
  (forall a, result (m s) = Ok a -> settles (rest (m s)) (k a (rest (m s)))) ->
  settles s (bind m k s).
Proof.
  unfold settles. intros [Hm Hlen] Hk.
  destruct (result (m s)) as [a|f] eqn:E.
  - rewrite (bind_ok _ _ _ _ E). cbn [result rest].
    destruct (Hk a eq_refl) as [Hr Hl]. split; [exact Hr | lia].
  - rewrite (bind_fail _ _ _ _ E). cbn [result rest]. split; [congruence | exact Hlen].
Qed.

Lemma lift_settles {A} (r : Result A) s : r <> Fail OutOfFuel -> settles s (lift r s).
Proof. intros H. split; [exact H | cbn; lia]. Qed.

Lemma ret_settles {A} (a : A) s : settles s (ret a s).
Proof. split; [discriminate | cbn; lia]. Qed.

Lemma emit_settles e s : settles s (emit e s).
Proof. split; [discriminate | cbn; lia]. Qed.

Lemma request_settles self method path params data s :
  settles s (Crawler._request self method path params data s) /\
  (forall a, result (Crawler._request self method path params data s) = Ok a ->
             (List.length (rest (Crawler._request self method path params data s))
              < List.length s)%nat).
Proof.
  unfold Crawler._request, settles.
  set (rq := Build_Request _ _ _ _).
  pose proof (attempts_rest Crawler.RATE_LIMITED_RETRY rq s) as [Hle Hlt].
  pose proof (attempts_fuel_free Crawler.RATE_LIMITED_RETRY rq s) as Hf.
  unfold bind, sleep, emit. cbn [result events rest].
  destruct (result (Crawler.attempts Crawler.RATE_LIMITED_RETRY rq s)) as [a|f] eqn:E;
    cbn [result rest].
  - repeat split; [discriminate | exact Hle |]. intros a' _. apply (Hlt a); [discriminate|reflexivity].
  - repeat split; [exact Hf | exact Hle |]. intros a' H; discriminate.
Qed.

Lemma try_except_settles {A} (m : M A) (handler : string -> M A) s :
  settles s (m s) ->
  (forall msg, settles (rest (m s)) (handler msg (rest (m s)))) ->
  settles s (try_except_DiscordApiError m handler s).
Proof.
  unfold settles, try_except_DiscordApiError. intros [Hm Hlen] Hh. cbv zeta.
  destruct (result (m s)) as [a|[e| |]] eqn:E; try (split; [congruence | exact Hlen]).
  destruct e as [msg|?| |?| | |?|]; try (split; [congruence | exact Hlen]).
  cbn [result rest]. destruct (Hh msg) as [Hr Hl]. split; [exact Hr | lia].
Qed.

Lemma skip_settles (why : string) msg s :
  settles s ((logging WARNING "" ;;; logging WARNING msg ;;; logging WARNING why ;;;
              ret false) s).
Proof.
  repeat (apply bind_settles; [apply emit_settles | intros _ _; cbn [emit rest]]).
  apply ret_settles.
Qed.

Lemma modify_settles self channel_id message_id replace_to s :
  settles s (Crawler.modify_channel_message_by_message_id self channel_id message_id
               replace_to s).
Proof.
  unfold Crawler.modify_channel_message_by_message_id.
  apply try_except_settles.
  - apply bind_settles; [apply request_settles | intros; apply ret_settles].
  - intros msg. apply skip_settles.
Qed.

Lemma delete_settles self channel_id message_id s :
  settles s (Crawler.delete_channel_message_by_message_id self channel_id message_id s).
Proof.
  unfold Crawler.delete_channel_message_by_message_id.
  apply try_except_settles.
  - apply bind_settles; [apply request_settles | intros; apply ret_settles].
  - intros msg. apply skip_settles.
Qed.

Lemma process_message_settles entropy crawler mode m st s :
  settles s (process_message entropy crawler mode m st s).
Proof.
  unfold process_message, replace_step.
  apply bind_settles.
  - destruct (negb _); [|apply ret_settles].
    apply bind_settles; [apply modify_settles | intros; apply ret_settles].
  - intros [ok st'] _. cbn [fst snd]. destruct ok; [|apply ret_settles].
    apply bind_settles; [apply delete_settles|].
    intros deleted _. destruct (negb deleted); apply ret_settles.
Qed.

Lemma for_messages_settles entropy crawler mode messages st s :
  settles s (for_messages entropy crawler mode messages st s).
Proof.
  revert st s. induction messages as [|m messages IH]; intros st s.
  - apply ret_settles.
  - cbn [for_messages]. apply bind_settles; [apply process_message_settles|].
    intros st' _. apply IH.
Qed.

Lemma sweep_settles fuel g s :
  (List.length s < fuel)%nat ->
  settles s (Crawler.sweep fuel g s) /\
  (forall y g', result (Crawler.sweep fuel g s) = Ok (Some y, g') ->
                (List.length (rest (Crawler.sweep fuel g s)) < List.length s)%nat).
Proof.
  revert g s. induction fuel as [|fuel IH]; intros g s Hfuel; [lia|].
  cbn [Crawler.sweep].
  destruct (request_settles (Crawler.self g) "get"
              ("/" ++ Crawler.room_type g ++ "/" ++ str_of_int (Crawler.room_id g)
                 ++ "/messages/search")
              [("author_id", PInt (Crawler.author_id g)); ("include_nsfw", PBool true);
               ("offset", PInt (Crawler.offset g)); ("sort_by", PStr "timestamp")]
              None s) as [[Hf Hle] Hlt].
  fold (Crawler.search_request g) in Hf, Hle, Hlt.
  destruct (result (Crawler.search_request g s)) as [res|f] eqn:Ereq.
  2:{ rewrite (bind_fail _ _ _ _ Ereq). unfold settles. cbn [result rest].
      repeat split; [congruence | exact Hle | discriminate]. }
  rewrite (bind_ok _ _ _ _ Ereq). unfold settles. cbn [result rest].
  specialize (Hlt res eq_refl).
  revert Hlt. generalize (rest (Crawler.search_request g s)). clear Hf Hle Ereq.
  intros s1 Hlt.
  destruct (Crawler.json_search res) as [page|f] eqn:Ej;
    [rewrite bind_lift_ok
    | cbn [bind lift result rest]; repeat split; try lia; try discriminate;
      unfold Crawler.json_search in Ej; destruct res as [res|];
      [destruct (body res)|]; congruence].
  destruct (Crawler.extract_hits (snd page)) as [hits|f] eqn:Eh;
    [rewrite bind_lift_ok | ].
  2:{ cbn [bind lift result rest]. repeat split; try lia; try discriminate.
      clear - Eh. revert f Eh. induction (snd page) as [|b bs IHb]; intros f Eh.
      - discriminate.
      - cbn [Crawler.extract_hits] in Eh. unfold Crawler.index in Eh.
        destruct (nth_error (filter Crawler.is_hit b) 0); [|congruence].
        destruct (Crawler.extract_hits bs) as [|f']; [discriminate|].
        injection Eh as <-. now apply IHb. }
  destruct hits as [|first hits].
  { cbn. repeat split; try lia; discriminate. }
  replace (Z.of_nat (List.length (first :: hits)) =? 0) with false by reflexivity.
  rewrite (bind_ok _ _ s1 (id first <? Crawler.oldest_message_id g)) by reflexivity.
  cbn [bind lift ret result events rest app Crawler.index nth_error].
  destruct (id first <? Crawler.oldest_message_id g).
  { cbn. repeat split; try lia; discriminate. }
  destruct (filter (Crawler.in_range g) (first :: hits)) as [|m batch].
  { cbn [List.length Z.of_nat Z.eqb].
    assert (Hfuel1 : (List.length s1 < fuel)%nat) by lia.
    match goal with
    | |- context [Crawler.sweep fuel ?g1 s1] =>
        destruct (IH g1 s1 Hfuel1) as [[Hf Hle] Hlt']
    end.
    repeat split; [exact Hf | lia |]. intros y g' Hy. specialize (Hlt' y g' Hy). lia. }
  replace (Z.of_nat (List.length (m :: batch)) =? 0) with false by reflexivity.
  unfold emit, bind, ret. cbn [result events rest].
  repeat split; try lia; discriminate.
Qed.

Lemma next_settles fuel g s :
  (List.length s < fuel)%nat ->
  settles s (Crawler.next fuel g s) /\
  (forall y g', result (Crawler.next fuel g s) = Ok (Some y, g') ->
                (List.length (rest (Crawler.next fuel g s)) < List.length s)%nat).
Proof.
  intros Hfuel. unfold Crawler.next.
  destruct (Crawler.pc g) as [|messages|].
  - destruct (existsb _ _); [now apply sweep_settles|].
    split; [split; [discriminate | cbn; lia] | discriminate].
  - destruct (Crawler.index_last messages) as [last|f] eqn:El.
    + rewrite bind_lift_ok. now apply sweep_settles.
    + rewrite bind_lift_fail. unfold settles. cbn [result rest].
      repeat split; try lia; try discriminate.
      unfold Crawler.index_last in El. destruct (rev messages); congruence.
  - split; [apply ret_settles | discriminate].
Qed.

Lemma for_each_settles {St} fuel (consume : Z * list Message -> St -> M St) g st s :
  (forall y st' s', settles s' (consume y st' s')) ->
  (List.length s < fuel)%nat ->
  settles s (Crawler.for_each fuel consume g st s).
Proof.
  intros Hc. revert g st s. induction fuel as [|fuel IH]; intros g st s Hfuel; [lia|].
  cbn [Crawler.for_each].
  destruct (next_settles (S fuel) g s Hfuel) as [Hn Hlt].
  apply bind_settles; [exact Hn|].
  intros [[y|] g'] Hr; cbn [fst snd]; [|apply ret_settles].
  specialize (Hlt y g' Hr).
  apply bind_settles; [apply Hc|].
  intros st' _. apply IH.
  destruct (Hc y st (rest (Crawler.next (S fuel) g s))) as [_ Hle]. lia.
Qed.

Lemma report_settles st s : settles s (report st s).
Proof.
  unfold report. destruct (total_results_size st =? 0).
  - repeat (apply bind_settles; [apply emit_settles | intros _ _; cbn [emit rest]]).
    apply ret_settles.
  - apply bind_settles.
    { apply lift_settles. unfold unbound. destruct (message st); discriminate. }
    intros last _. cbn [lift rest].
    repeat (apply bind_settles; [apply emit_settles | intros _ _; cbn [emit rest]]).
    apply bind_settles.
    { apply lift_settles. unfold unbound.
      destruct (newest_message_datetime st); discriminate. }
    intros dt _. cbn [lift rest].
    apply bind_settles; [apply emit_settles | intros _ _; apply ret_settles].
Qed.

(** The fuel [main] gives its loop is enough for every script. *)
Lemma main_fuel_suffices entropy token token_type room_id room_type author_id
    newest_message_id oldest_message_id replace_before_delete replace_to default_sleep script :
  result (main entropy token token_type room_id room_type author_id newest_message_id
            oldest_message_id replace_before_delete replace_to default_sleep script)
  <> Fail OutOfFuel.
Proof.
  unfold main.
  match goal with
  | |- context [try_except_reraise ?m ?h] => set (inner := m); set (handler := h)
  end.
  assert (Hin : settles script (inner script)).
  { subst inner. apply bind_settles.
    - apply for_each_settles; [|lia].
      intros y st' s'. apply for_messages_settles.
    - intros st' _. apply report_settles. }
  destruct Hin as [Hin _]. clearbody inner.
  unfold bind at 1. cbn [logging emit result events rest].
  unfold try_except_reraise.
  destruct (result (inner script)) as [a|[e| |]] eqn:E; cbn [result]; try congruence.
  subst handler. cbn. discriminate.
Qed.

(** ** A whole run *)

(** Three messages 200, 150 and 100 within the bounds 100 and 200, mode
    [none]: three delete requests in that order, no patch request, and
    the locals of the summary. *)
Example three_messages_deleted :
  let r := main (fun _ => O) "token" "User" 9 "channel" 5 200 100 "none" None 0
             [sample_page [200; 150; 100]; sample_ok; sample_ok; sample_ok;
              sample_page []] in
  result r = Ok (mkLocals 200 (Some "t") 3 0 (Some (sample_hit 100)) None 0) /\
  map (fun e => match e with Http rq => path rq | _ => "" end) (calls "delete" (events r))
  = [ "https://discordapp.com/api/v6/channels/7/messages/200";
      "https://discordapp.com/api/v6/channels/7/messages/150";
      "https://discordapp.com/api/v6/channels/7/messages/100" ] /\
  calls "patch" (events r) = [] /\
  In (Log INFO "Message IDs: from 100 to 200") (events r).
Proof.
  vm_compute. repeat split. tauto.
Qed.

(** ** More on the transport client *)

Lemma attempts_made_le n rq s :
  (attempts_made (events (Crawler.attempts n rq s)) <= n)%nat.
Proof.
  unfold attempts_made.
  revert s; induction n as [|n IH]; intros s.
  - run_step. cbn. lia.
  - destruct s as [|res s]; run_step; [cbn; lia|].
    destruct (Crawler.lookup _ _); run_step; [cbn; lia|].
    destruct (_ && _)%bool; run_step; [cbn; lia|].
    destruct (_ =? _); run_step; [|cbn; lia].
    destruct (Crawler.json_retry_after res); run_step; [|cbn; lia].
    cbn [filter is_attempt List.length]. specialize (IH s). lia.
Qed.

Lemma attempts_made_ge n rq s :
  (1 <= attempts_made (events (Crawler.attempts (S n) rq s)))%nat.
Proof.
  unfold attempts_made.
  destruct s as [|res s]; run_step; [cbn; lia|].
  destruct (Crawler.lookup _ _); run_step; [cbn; lia|].
  destruct (_ && _)%bool; run_step; [cbn; lia|].
  destruct (_ =? _); run_step; [|cbn; lia].
  destruct (Crawler.json_retry_after res); run_step; [|cbn; lia].
  cbn [filter is_attempt List.length]. lia.
Qed.

(** X1: with a [default_sleep] that [time.sleep] accepts, one call of
    [_request] makes at least one HTTP attempt, whatever the remote answers,
    and at most [RATE_LIMITED_RETRY] = 5. *)
Theorem request_attempts_bounded (self : Crawler.t) (method path : string)
    (params : list (string * Param)) (data : option string) (script : list Response) :
  sleepable (Crawler.default_sleep self) ->
  (1 <= attempts_made (events (Crawler._request self method path params data script)) <= 5)%nat.
Proof.
  intros _. unfold Crawler._request.
  set (rq := Build_Request _ _ _ _).
  pose proof (attempts_made_le Crawler.RATE_LIMITED_RETRY rq script) as Hle.
  pose proof (attempts_made_ge 4 rq script) as Hge.
  change (S 4) with Crawler.RATE_LIMITED_RETRY in Hge.
  unfold bind, sleep, emit. cbn [result events rest app].
  unfold attempts_made in *. cbn [filter is_attempt].
  change Crawler.RATE_LIMITED_RETRY with 5%nat in Hle at 2. lia.
Qed.

Lemma request_attempts_bounded_witness :
  (1 <= attempts_made
          (events (Crawler._request (Crawler.init "token" (1 # 2)) "get" "/x" [] None
                     [rate_limited 200 ""; rate_limited 50 ""; sample_ok])) <= 5)%nat.
Proof.
  apply (request_attempts_bounded (Crawler.init "token" (1 # 2)) "get" "/x" [] None
           [rate_limited 200 ""; rate_limited 50 ""; sample_ok]).
  unfold sleepable, Qle. cbn. lia.
Defined.

Lemma passes_lookup c : passes c -> Crawler.lookup (Crawler.KInt c) Crawler.HTTP_CODE_MESSAGES = None
  /\ ((500 <=? c) && (c <? 600))%bool = false /\ (c =? 429) = false.
Proof.
  intros (Hin & Hr & H429). split; [|split].
  - apply lookup_unlisted. cbn [existsb].
    cbn [In] in Hin.
    repeat (apply orb_false_intro; [apply Z.eqb_neq; intros ->; try tauto; lia|]).
    reflexivity.
  - destruct (500 <=? c) eqn:E1; [|reflexivity]. destruct (c <? 600) eqn:E2; [|reflexivity].
    apply Z.leb_le in E1. apply Z.ltb_lt in E2. lia.
  - now apply Z.eqb_neq.
Qed.

Lemma attempts_after_limits n rq (limits : list (Z * string)) res tail :
  (List.length limits < n)%nat ->
  passes (status_code res) ->
  let r := Crawler.attempts n rq
             (map (fun l => rate_limited (fst l) (snd l)) limits ++ res :: tail)%list in
  result r = Ok (Some res) /\
  rest r = tail /\
  attempts_made (events r) = S (List.length limits) /\
  filter is_sleep (events r)
  = map (fun l => Sleep Backoff (inject_Z (fst l) / 1000)%Q) limits.
Proof.
  intros Hn Hp. cbv zeta. revert n Hn.
  induction limits as [|[ra txt] limits IH]; intros n Hn.
  - destruct n as [|n]; [cbn in Hn; lia|].
    destruct (passes_lookup _ Hp) as (H1 & H2 & H3).
    cbn [map app]. run_step. rewrite H1, H2, H3. run_step.
    repeat split.
  - destruct n as [|n]; [cbn in Hn; lia|].
    cbn [List.length] in Hn.
    destruct (IH n ltac:(lia)) as (I1 & I2 & I3 & I4).
    cbn [map app fst snd]. run_step.
    cbn [rate_limited status_code body Crawler.lookup Crawler.HTTP_CODE_MESSAGES
         Crawler.key_eqb Z.eqb Pos.eqb Z.leb Z.ltb Z.compare Pos.compare Pos.compare_cont
         andb Crawler.json_retry_after].
    run_step.
    repeat split; try assumption.
    + unfold attempts_made in *. cbn [filter is_attempt List.length]. now rewrite I3.
    + cbn [filter is_sleep]. now rewrite I4.
Qed.

(** X2: fewer than five 429 responses followed by a response whose
    status is neither listed, nor 5xx, nor 429, with sleeps that
    [time.sleep] accepts: the call returns that response, after one attempt
    per response, having slept [default_sleep] once and then
    [retry_after / 1000] for each 429, in order. *)
Theorem request_retries_until_passed (self : Crawler.t) (method path : string)
    (params : list (string * Param)) (data : option string)
    (limits : list (Z * string)) (res : Response) (tail : list Response) :
  sleepable (Crawler.default_sleep self) ->
  Forall (fun l => backs_off (fst l)) limits ->
  (List.length limits < 5)%nat ->
  passes (status_code res) ->
  let r := Crawler._request self method path params data
             (map (fun l => rate_limited (fst l) (snd l)) limits ++ res :: tail)%list in
  result r = Ok (Some res) /\
  rest r = tail /\
  attempts_made (events r) = S (List.length limits) /\
  filter is_sleep (events r)
  = Sleep Throttle (Crawler.default_sleep self)
      :: map (fun l => Sleep Backoff (inject_Z (fst l) / 1000)%Q) limits.
Proof.
  intros _ _ Hn Hp. cbv zeta. unfold Crawler._request.
  set (rq := Build_Request _ _ _ _).
  destruct (attempts_after_limits Crawler.RATE_LIMITED_RETRY rq limits res tail Hn Hp)
    as (H1 & H2 & H3 & H4).
  unfold bind, sleep, emit. cbn [result events rest app].
  rewrite H1. cbn [result events rest].
  repeat split; try assumption.
  cbn [filter is_sleep]. now rewrite H4.
Qed.

Lemma request_retries_until_passed_witness :
  let r := Crawler._request sample_crawler "get" "/x" [] None
             [rate_limited 300 ""; rate_limited 50 ""; sample_ok; sample_ok] in
  result r = Ok (Some sample_ok) /\
  rest r = [sample_ok] /\
  attempts_made (events r) = 3%nat /\
  filter is_sleep (events r)
  = [Sleep Throttle 0; Sleep Backoff (inject_Z 300 / 1000)%Q;
     Sleep Backoff (inject_Z 50 / 1000)%Q].
Proof.
  apply (request_retries_until_passed sample_crawler "get" "/x" [] None
           [(300, ""); (50, "")] sample_ok [sample_ok]).
  - unfold sleepable, Qle. cbn. lia.
  - apply Forall_cons; [|apply Forall_cons; [|apply Forall_nil]];
      unfold backs_off, sleepable, Qle; cbn; lia.
  - cbn. lia.
  - unfold passes. cbn. lia.
Defined.

Lemma retry_after_failure_not_api_error res f :
  Crawler.json_retry_after res = Fail f -> not_api_error f.
Proof.
  unfold Crawler.json_retry_after. intros Hj msg ->.
  destruct (body res); discriminate Hj.
Qed.

(** X3: a 429 that answers the first attempt, or a retry after 429
    responses whose back-off [time.sleep] accepts, and from whose body
    [retry_after] cannot be read, makes [_request] raise at that attempt the
    exception of the reading ([KeyError] for an object without the key,
    [TypeError] for JSON that is no object, the decoding error for a body
    that is no JSON); it is no [DiscordApiError], so the replace and delete
    calls let it through instead of returning [False]. *)
Theorem rate_limit_without_retry_after (self : Crawler.t) (method path : string)
    (params : list (string * Param)) (data : option string)
    (channel_id message_id : Z) (replace_to : option string)
    (limits : list (Z * string)) (res : Response) (tail : list Response) (f : Failure) :
  sleepable (Crawler.default_sleep self) ->
  Forall (fun l => backs_off (fst l)) limits ->
  (List.length limits < 5)%nat ->
  status_code res = 429 ->
  Crawler.json_retry_after res = Fail f ->
  let script := (limited limits ++ res :: tail)%list in
  let r := Crawler._request self method path params data script in
  result r = Fail f /\
  events r = (Sleep Throttle (Crawler.default_sleep self)
                :: retried (request_of method path params data) limits
                ++ [Http (request_of method path params data)])%list /\
  attempts_made (events r) = S (List.length limits) /\
  rest r = tail /\
  not_api_error f /\
  result (Crawler.delete_channel_message_by_message_id self channel_id message_id script)
    = Fail f /\
  result (Crawler.modify_channel_message_by_message_id self channel_id message_id
            replace_to script) = Fail f.
Proof.
  intros _ _ Hn Hs Hj. cbv zeta.
  pose proof (retry_after_failure_not_api_error res f Hj) as Hf.
  assert (Hone : forall n rq,
             Crawler.attempts (S n) rq (res :: tail) = mkRun (Fail f) [Http rq] tail).
  { intros n rq. run_step. rewrite Hs.
    cbn [Crawler.lookup Crawler.HTTP_CODE_MESSAGES Crawler.key_eqb Z.eqb Pos.eqb
         Z.leb Z.ltb Z.compare Pos.compare Pos.compare_cont andb].
    rewrite Hj. reflexivity. }
  assert (Hrun : forall m p ps d,
             Crawler._request self m p ps d (limited limits ++ res :: tail)%list
             = mkRun (Fail f)
                 (Sleep Throttle (Crawler.default_sleep self)
                    :: retried (request_of m p ps d) limits
                    ++ [Http (request_of m p ps d)])%list
                 tail).
  { intros m p ps d. unfold Crawler._request.
    fold (request_of m p ps d).
    replace Crawler.RATE_LIMITED_RETRY
      with (List.length limits + S (4 - List.length limits))%nat
      by (unfold Crawler.RATE_LIMITED_RETRY; lia).
    destruct (attempts_skip_limits (S (4 - List.length limits)) (request_of m p ps d)
                limits (res :: tail)) as (H1 & H2 & H3).
    rewrite Hone in H1, H2, H3. cbn [result events rest] in H1, H2, H3.
    unfold bind, sleep, emit. cbn [result events rest app].
    rewrite H1, H2, H3. reflexivity. }
  rewrite Hrun. cbn [result events rest].
  split; [reflexivity|]. split; [reflexivity|].
  split.
  { unfold attempts_made. cbn [filter is_attempt List.length]. f_equal.
    fold (attempts_made (retried (request_of method path params data) limits
                           ++ [Http (request_of method path params data)])).
    rewrite attempts_made_retried. cbn. lia. }
  split; [reflexivity|]. split; [exact Hf|].
  unfold Crawler.delete_channel_message_by_message_id,
         Crawler.modify_channel_message_by_message_id, try_except_DiscordApiError.
  unfold bind. rewrite !Hrun. cbn [result events rest].
  destruct f as [[msg|?| |?| | |?|]| |]; try (split; reflexivity).
  exfalso. now apply (Hf msg).
Qed.

Lemma rate_limit_without_retry_after_witness :
  let res := {| status_code := 429; text := "[]"; body := BodyNotObject |} in
  let script := [rate_limited 200 "{}"; res; sample_ok] in
  let r := Crawler._request sample_crawler "delete" "/x" [] None script in
  result r = Fail (Raised TypeError) /\
  events r = [ Sleep Throttle 0; Http (request_of "delete" "/x" [] None);
               Log WARNING "Rate limited. We will sleep 200 ms, and retry it.";
               Sleep Backoff (inject_Z 200 / 1000)%Q;
               Http (request_of "delete" "/x" [] None) ] /\
  attempts_made (events r) = 2%nat /\
  rest r = [sample_ok] /\
  not_api_error (Raised TypeError) /\
  result (Crawler.delete_channel_message_by_message_id sample_crawler 7 150 script)
    = Fail (Raised TypeError) /\
  result (Crawler.modify_channel_message_by_message_id sample_crawler 7 150 None script)
    = Fail (Raised TypeError).
Proof.
  apply (rate_limit_without_retry_after sample_crawler "delete" "/x" [] None 7 150 None
           [(200, "{}")] {| status_code := 429; text := "[]"; body := BodyNotObject |}
           [sample_ok] (Raised TypeError)).
  - unfold sleepable, Qle. cbn. lia.
  - apply Forall_cons; [|apply Forall_nil].
    unfold backs_off, sleepable, Qle. cbn. lia.
  - cbn. lia.
  - reflexivity.
  - reflexivity.
Defined.

Lemma request_attempts_same self method path params data script :
  Forall (fun e => is_attempt e = true -> e = Http (request_of method path params data))
    (events (Crawler._request self method path params data script)).
Proof.
  unfold Crawler._request.
  fold (request_of method path params data).
  pose proof (attempts_shape Crawler.RATE_LIMITED_RETRY
                (request_of method path params data) script) as H.
  unfold bind, sleep, emit. cbn [result events rest app].
  constructor; [discriminate|].
  induction H; repeat constructor; try discriminate; auto.
Qed.

(** X4: every HTTP attempt of a call is the same request: the method,
    [API_URL] followed by the path, the parameters and the data of the
    call. *)
Theorem request_repeats_same_request (self : Crawler.t) (method path : string)
    (params : list (string * Param)) (data : option string) (script : list Response) :
  Forall (fun e => is_attempt e = true -> e = Http (request_of method path params data))
    (events (Crawler._request self method path params data script)).
Proof.
  unfold Crawler._request.
  fold (request_of method path params data).
  pose proof (attempts_shape Crawler.RATE_LIMITED_RETRY
                (request_of method path params data) script) as Hshape.
  unfold bind, sleep, emit. cbn [result events rest app].
  constructor; [discriminate|].
  induction Hshape as [msg| |msg q evs _ IH].
  - constructor; [discriminate | constructor].
  - constructor; [reflexivity | constructor].
  - constructor; [reflexivity|]. constructor; [discriminate|].
    constructor; [discriminate | exact IH].
Qed.

Lemma lookup_listed (status : Z) :
  Crawler.lookup (Crawler.KInt status) Crawler.HTTP_CODE_MESSAGES <> None
  <-> In status [400; 401; 403; 404; 405; 502].
Proof.
  split.
  - intros H.
    destruct (existsb (Z.eqb status) [400; 401; 403; 404; 405; 502]) eqn:E.
    + apply existsb_exists in E. destruct E as [x [Hx Heq]].
      apply Z.eqb_eq in Heq. now subst x.
    + now rewrite (lookup_unlisted _ E) in H.
  - cbn [In]. intros H.
    repeat (destruct H as [<-|H]; [discriminate|]). destruct H.
Qed.

(** X5: an integer status is a key of [HTTP_CODE_MESSAGES] exactly when
    it is 400, 401, 403, 404, 405 or 502; the key ['5xx'] is a string and no
    status finds it. *)
Theorem status_listed_iff (status : Z) :
  Crawler.lookup (Crawler.KInt status) Crawler.HTTP_CODE_MESSAGES <> None
  <-> In status [400; 401; 403; 404; 405; 502].
Proof.
  split.
  - intros Hkey.
    destruct (existsb (Z.eqb status) [400; 401; 403; 404; 405; 502]) eqn:E.
    + apply existsb_exists in E. destruct E as [code [Hcode Heq]].
      apply Z.eqb_eq in Heq. now subst code.
    + now rewrite (lookup_unlisted _ E) in Hkey.
  - cbn [In]. intros Hin.
    repeat (destruct Hin as [<-|Hin]; [discriminate|]). destruct Hin.
Qed.

Lemma attempts_raise_terminal n rq s msg :
  result (Crawler.attempts n rq s) = Fail (Raised (DiscordApiErrorExn msg)) ->
  exists res, In res s /\ terminal (status_code res).
Proof.
  revert s; induction n as [|n IH]; intros s; [discriminate|].
  destruct s as [|res s]; run_step; [discriminate|].
  destruct (Crawler.lookup _ _) eqn:El; run_step.
  { intros _. exists res. split; [now left|]. left.
    apply lookup_listed. congruence. }
  destruct (_ && _)%bool eqn:Er; run_step.
  { intros _. exists res. split; [now left|]. right.
    apply andb_prop in Er. destruct Er as [E1 E2].
    apply Z.leb_le in E1. apply Z.ltb_lt in E2. lia. }
  destruct (_ =? _); run_step; [|discriminate].
  destruct (Crawler.json_retry_after res) as [ra|f] eqn:Ej; run_step.
  - intros H. destruct (IH s H) as [res' [Hin Ht]]. exists res'. split; [now right|exact Ht].
  - unfold Crawler.json_retry_after in Ej. destruct (body res); inversion Ej; discriminate.
Qed.

Lemma request_raise_terminal self method path params data s msg :
  result (Crawler._request self method path params data s)
  = Fail (Raised (DiscordApiErrorExn msg)) ->
  exists res, In res s /\ terminal (status_code res).
Proof.
  unfold Crawler._request. unfold bind at 1. cbn [sleep emit result events rest].
  destruct (result (Crawler.attempts _ _ s)) as [a|f] eqn:E; cbn [result]; [discriminate|].
  intros H. injection H as ->. exact (attempts_raise_terminal _ _ _ _ E).
Qed.

Lemma absorbed_outcome (req : M (option Response)) (why : string) s :
  let r := try_except_DiscordApiError
             (res <- req ;; ret true)
             (fun e => logging WARNING "" ;;; logging WARNING e ;;;
                       logging WARNING why ;;; ret false) s in
  match result (req s) with
  | Ok _ => r = mkRun (Ok true) (events (req s)) (rest (req s))
  | Fail (Raised (DiscordApiErrorExn msg)) =>
      r = mkRun (Ok false)
            (events (req s) ++ [Log WARNING ""; Log WARNING msg; Log WARNING why])
            (rest (req s))
  | Fail f => r = mkRun (Fail f) (events (req s)) (rest (req s))
  end.
Proof.
  cbv zeta. unfold try_except_DiscordApiError.
  destruct (result (req s)) as [res|f] eqn:E.
  - rewrite (bind_ok _ _ _ _ E). cbn [ret result events rest]. now rewrite app_nil_r.
  - rewrite (bind_fail _ _ _ _ E). cbn [result events rest].
    destruct f as [e| |]; try reflexivity.
    destruct e; reflexivity.
Qed.

(** X6: the replace and delete calls never raise [DiscordApiError]; when
    one returns [False], a response of the script had a listed or 5xx
    status, and the last event of the call is its warning that the message
    is skipped. *)
Theorem mutation_failures_absorbed (self : Crawler.t) (channel_id message_id : Z)
    (replace_to : option string) (s : list Response) :
  let del := Crawler.delete_channel_message_by_message_id self channel_id message_id s in
  let rep := Crawler.modify_channel_message_by_message_id self channel_id message_id
               replace_to s in
  (forall msg, result del <> Fail (Raised (DiscordApiErrorExn msg))) /\
  (forall msg, result rep <> Fail (Raised (DiscordApiErrorExn msg))) /\
  (result del = Ok false ->
   (exists res, In res s /\ terminal (status_code res)) /\
   ends_with (Log WARNING "Skip this message which cannot be done to delete.") (events del)) /\
  (result rep = Ok false ->
   (exists res, In res s /\ terminal (status_code res)) /\
   ends_with (Log WARNING "Skip this message which cannot be done to modify.") (events rep)).
Proof.
  cbv zeta.
  unfold Crawler.delete_channel_message_by_message_id,
         Crawler.modify_channel_message_by_message_id.
  set (dreq := Crawler._request self "delete" _ _ _).
  set (mreq := Crawler._request self "patch" _ _ _).
  pose proof (absorbed_outcome dreq "Skip this message which cannot be done to delete." s)
    as Hd.
  pose proof (absorbed_outcome mreq "Skip this message which cannot be done to modify." s)
    as Hm.
  cbv zeta in Hd, Hm.
  assert (Td : forall msg, result (dreq s) = Fail (Raised (DiscordApiErrorExn msg)) ->
                           exists res, In res s /\ terminal (status_code res))
    by (intros msg; subst dreq; apply request_raise_terminal).
  assert (Tm : forall msg, result (mreq s) = Fail (Raised (DiscordApiErrorExn msg)) ->
                           exists res, In res s /\ terminal (status_code res))
    by (intros msg; subst mreq; apply request_raise_terminal).
  clearbody dreq mreq.
  split; [|split; [|split]].
  - intros msg. destruct (result (dreq s)) as [res|[[]| |]]; rewrite Hd; discriminate.
  - intros msg. destruct (result (mreq s)) as [res|[[]| |]]; rewrite Hm; discriminate.
  - destruct (result (dreq s)) as [res|[[why|?| |?| | |?|]| |]]; rewrite Hd;
      try discriminate.
    intros _. split; [now apply (Td why)|].
    cbn [events]. exists (events (dreq s) ++ [Log WARNING ""; Log WARNING why])%list.
    now rewrite <- app_assoc.
  - destruct (result (mreq s)) as [res|[[why|?| |?| | |?|]| |]]; rewrite Hm;
      try discriminate.
    intros _. split; [now apply (Tm why)|].
    cbn [events]. exists (events (mreq s) ++ [Log WARNING ""; Log WARNING why])%list.
    now rewrite <- app_assoc.
Qed.

(** ** More on the search paginator *)

Lemma index_head {A} (l : list A) :
  Crawler.index l 0 = match hd_error l with
                      | Some a => Ok a
                      | None => Fail (Raised IndexError)
                      end.
Proof. now destruct l. Qed.

Lemma extract_hits_ok blocks hits :
  Crawler.extract_hits blocks = Ok hits
  <-> map (fun block => hd_error (filter Crawler.is_hit block)) blocks = map Some hits.
Proof.
  revert hits. induction blocks as [|block blocks IH]; intros hits.
  - cbn. split.
    + intros H. injection H as <-. reflexivity.
    + destruct hits; [reflexivity | discriminate].
  - cbn [Crawler.extract_hits map]. rewrite index_head.
    destruct (hd_error (filter Crawler.is_hit block)) as [m|].
    + destruct (Crawler.extract_hits blocks) as [hits'|f] eqn:E.
      * split.
        -- intros H. injection H as <-. cbn [map]. f_equal. now apply IH.
        -- destruct hits as [|m' hits]; [discriminate|]. cbn [map].
           intros H. injection H as <- H. apply IH in H. injection H as <-. reflexivity.
      * split; [discriminate|].
        destruct hits as [|m' hits]; [discriminate|]. cbn [map].
        intros H. injection H as _ H. apply IH in H. discriminate.
    + split; [discriminate|]. destruct hits; discriminate.
Qed.

Lemma extract_hits_failure blocks f :
  Crawler.extract_hits blocks = Fail f -> f = Raised IndexError.
Proof.
  revert f. induction blocks as [|block blocks IH]; intros f; [discriminate|].
  cbn [Crawler.extract_hits]. rewrite index_head.
  destruct (hd_error (filter Crawler.is_hit block)).
  - destruct (Crawler.extract_hits blocks) as [|f']; [discriminate|].
    intros H. injection H as <-. now apply IH.
  - intros H. now injection H as <-.
Qed.

Lemma extract_hits_flagged blocks hits :
  Crawler.extract_hits blocks = Ok hits ->
  Forall (fun m => Crawler.is_hit m = true) hits.
Proof.
  intros H. apply extract_hits_ok in H.
  revert hits H. induction blocks as [|block blocks IH]; intros hits H.
  - destruct hits; [constructor | discriminate].
  - destruct hits as [|m hits]; [discriminate|]. cbn [map] in H.
    injection H as Hm H. constructor; [|now apply IH].
    assert (Hin : In m (filter Crawler.is_hit block)).
    { destruct (filter Crawler.is_hit block); [discriminate|].
      injection Hm as ->. now left. }
    apply filter_In in Hin. tauto.
Qed.

(** X7: the extraction succeeds exactly with the first flagged message
    of every block, in the order of the blocks; when it fails it is with
    [IndexError], and some block has no flagged message. *)
Theorem extract_hits_first_flagged (blocks : list (list Message)) :
  (forall hits,
      Crawler.extract_hits blocks = Ok hits
      <-> map (fun block => hd_error (filter Crawler.is_hit block)) blocks = map Some hits) /\
  (forall f, Crawler.extract_hits blocks = Fail f ->
             f = Raised IndexError /\
             Exists (fun block => filter Crawler.is_hit block = []) blocks).
Proof.
  split; [intros hits; apply extract_hits_ok|].
  intros f H. split; [now apply (extract_hits_failure blocks)|].
  clear - H. revert f H. induction blocks as [|block blocks IH]; intros f H; [discriminate|].
  cbn [Crawler.extract_hits] in H. rewrite index_head in H.
  destruct (filter Crawler.is_hit block) as [|m l] eqn:Ef; [now left|].
  cbn [hd_error] in H. right.
  destruct (Crawler.extract_hits blocks) as [|f']; [discriminate|]. now apply (IH f').
Qed.

Lemma sweep_yield fuel g s running_total batch g' :
  result (Crawler.sweep fuel g s) = Ok (Some (running_total, batch), g') ->
  Forall (fun m => Crawler.is_hit m = true) batch /\
  Crawler.pc g' = Crawler.AfterYield batch /\
  same_search g g' /\
  Crawler.room_type g' = Crawler.room_type g /\
  Crawler.newest_message_id g' = Crawler.newest_message_id g /\
  Crawler.offset g <= Crawler.offset g'.
Proof.
  revert g s. induction fuel as [|fuel IH]; intros g s; [discriminate|].
  cbn [Crawler.sweep].
  destruct (result (Crawler.search_request g s)) as [res|f] eqn:Ereq.
  2:{ rewrite (bind_fail _ _ _ _ Ereq). discriminate. }
  rewrite (bind_ok _ _ _ _ Ereq). cbn [result].
  generalize (rest (Crawler.search_request g s)). clear s Ereq. intros s.
  destruct (Crawler.json_search res) as [page|f];
    [rewrite bind_lift_ok | discriminate].
  destruct (Crawler.extract_hits (snd page)) as [hits|f] eqn:Eh;
    [rewrite bind_lift_ok | discriminate].
  apply extract_hits_flagged in Eh.
  destruct hits as [|first hits]; [discriminate|].
  replace (Z.of_nat (List.length (first :: hits)) =? 0) with false by reflexivity.
  rewrite (bind_ok _ _ s (id first <? Crawler.oldest_message_id g)) by reflexivity.
  cbn [bind lift ret result events rest app Crawler.index nth_error].
  destruct (id first <? Crawler.oldest_message_id g); [discriminate|].
  destruct (filter (Crawler.in_range g) (first :: hits)) as [|m batch'] eqn:Ef.
  { replace (Z.of_nat (List.length (@nil Message)) =? 0) with true by reflexivity.
    intros H. apply IH in H.
    destruct H as (H1 & H2 & (S1 & S2 & S3 & S4) & H4 & H5 & H6).
    cbn [Crawler.set_offset Crawler.self Crawler.room_id Crawler.author_id
         Crawler.oldest_message_id Crawler.room_type Crawler.newest_message_id
         Crawler.offset] in *.
    repeat split; try assumption. lia. }
  replace (Z.of_nat (List.length (m :: batch')) =? 0) with false by reflexivity.
  unfold emit, bind, ret. cbn [result].
  intros H. injection H as _ <- <-.
  cbn [Crawler.set_pc Crawler.set_total_results_size Crawler.pc Crawler.self
       Crawler.room_id Crawler.author_id Crawler.oldest_message_id Crawler.room_type
       Crawler.newest_message_id Crawler.offset].
  unfold same_search.
  cbn [Crawler.self Crawler.room_id Crawler.author_id Crawler.oldest_message_id].
  repeat split; try lia.
  rewrite <- Ef. apply Forall_forall. intros x Hx. apply filter_In in Hx.
  destruct Hx as [Hx _]. rewrite Forall_forall in Eh. now apply Eh.
Qed.

Lemma next_yield fuel g s running_total batch g' :
  result (Crawler.next fuel g s) = Ok (Some (running_total, batch), g') ->
  Forall (fun m => Crawler.is_hit m = true) batch /\
  Crawler.pc g' = Crawler.AfterYield batch /\
  same_search g g' /\
  Crawler.room_type g'
  = match Crawler.pc g with
    | Crawler.AtStart => lower (Crawler.room_type g) ++ "s"
    | _ => Crawler.room_type g
    end /\
  Crawler.offset g <= Crawler.offset g'.
Proof.
  unfold Crawler.next. destruct (Crawler.pc g) as [|messages|].
  - destruct (existsb _ _); [|discriminate].
    intros H. apply sweep_yield in H.
    destruct H as (H1 & H2 & H3 & H4 & _ & H6). repeat split; try assumption; apply H3.
  - destruct (Crawler.index_last messages) as [last|f];
      [rewrite bind_lift_ok | discriminate].
    intros H. apply sweep_yield in H.
    destruct H as (H1 & H2 & H3 & H4 & _ & H6). repeat split; try assumption; apply H3.
  - discriminate.
Qed.

(** A property of the yielded pairs that each resumption extends holds of
    all the pairs of a loop over the generator. *)
Lemma for_each_yields_ind {St} (P : Crawler.Gen -> list (Z * list Message) -> Prop) :
  (forall g, P g []) ->
  (forall fuel g s running_total batch g' ys,
      result (Crawler.next fuel g s) = Ok (Some (running_total, batch), g') ->
      P g' ys -> P g ((running_total, batch) :: ys)) ->
  forall fuel (consume : Z * list Message -> St -> M St) g st s,
    (forall y st' s', yields (events (consume y st' s')) = []) ->
    P g (yields (events (Crawler.for_each fuel consume g st s))).
Proof.
  intros Hnil Hstep fuel consume g st s Hc. revert g st s.
  induction fuel as [|fuel IH]; intros g st s; [apply Hnil|].
  cbn [Crawler.for_each].
  destruct (cursor_bounded g) as [bound Hb].
  pose proof (next_resumed (S fuel) bound g s Hb) as Hn. unfold resumed in Hn.
  destruct (result (Crawler.next (S fuel) g s)) as [[[[total batch]|] g']|f] eqn:En.
  - destruct Hn as (Hy & _).
    rewrite (bind_ok _ _ _ _ En). cbn [events fst snd]. rewrite yields_app, Hy.
    cbn [app]. apply (Hstep (S fuel) g s total batch g' _ En).
    generalize (rest (Crawler.next (S fuel) g s)). intros s1.
    destruct (result (consume (total, batch) st s1)) as [st1|f] eqn:Eb.
    + rewrite (bind_ok _ _ _ _ Eb). cbn [events]. rewrite yields_app, Hc. apply IH.
    + rewrite (bind_fail _ _ _ _ Eb). cbn [events]. rewrite Hc. apply Hnil.
  - destruct Hn as [Hy _].
    rewrite (bind_ok _ _ _ _ En). cbn [events fst snd ret app].
    rewrite app_nil_r, Hy. apply Hnil.
  - rewrite (bind_fail _ _ _ _ En). cbn [events]. rewrite Hn. apply Hnil.
Qed.

Lemma next_yield_total fuel g s running_total batch g' :
  result (Crawler.next fuel g s) = Ok (Some (running_total, batch), g') ->
  batch <> [] /\
  running_total = Crawler.total_results_size g + Z.of_nat (List.length batch) /\
  Crawler.total_results_size g' = running_total /\
  (forall bound, cursor_le bound g ->
                 Forall (fun m => id m <= bound) batch /\ cursor_le bound g').
Proof.
  intros H.
  assert (Hall : forall bound, cursor_le bound g ->
            batch <> [] /\
            running_total = Crawler.total_results_size g + Z.of_nat (List.length batch) /\
            Crawler.total_results_size g' = running_total /\
            Forall (fun m => id m <= bound) batch /\ cursor_le bound g').
  { intros bound Hb. pose proof (next_resumed fuel bound g s Hb) as Hn.
    unfold resumed in Hn. rewrite H in Hn.
    destruct Hn as (_ & H1 & H2 & H3 & _ & H5 & H6).
    repeat split; try assumption.
    revert H2. apply Forall_impl. intros m. lia. }
  destruct (cursor_bounded g) as [bound0 Hb0].
  destruct (Hall bound0 Hb0) as (H1 & H2 & H3 & _).
  repeat split; try assumption; now apply Hall.
Qed.

(** X8: no yielded batch is empty, every yielded message is flagged as
    a hit, and the running totals strictly increase from the total the
    generator starts with. *)
Theorem yielded_batches_flagged_nonempty {St} (consume : Z * list Message -> St -> M St)
    (g : Crawler.Gen) (st : St) (fuel : nat) (script : list Response) :
  (forall y st' s', yields (events (consume y st' s')) = []) ->
  let ys := yields (events (Crawler.for_each fuel consume g st script)) in
  Forall (fun y => snd y <> [] /\ Forall (fun m => Crawler.is_hit m = true) (snd y)) ys /\
  increasing (Crawler.total_results_size g) (map fst ys).
Proof.
  intros Hc. cbv zeta.
  apply (for_each_yields_ind
           (fun g ys =>
              Forall (fun y => snd y <> [] /\
                               Forall (fun m => Crawler.is_hit m = true) (snd y)) ys /\
              increasing (Crawler.total_results_size g) (map fst ys)));
    [| |exact Hc].
  - intros g0. split; [constructor | exact I].
  - intros fuel0 g0 s0 t b g' ys Hn [IH1 IH2].
    destruct (next_yield _ _ _ _ _ _ Hn) as (Hflag & _).
    destruct (next_yield_total _ _ _ _ _ _ Hn) as (Hne & Ht & Ht' & _).
    split; [constructor; [split; assumption | assumption]|].
    cbn [map fst increasing]. rewrite Ht' in IH2. split; [|exact IH2].
    destruct b; [congruence|]. cbn [List.length] in Ht. lia.
Qed.

Lemma yielded_batches_flagged_nonempty_witness :
  let ys := yields (events (Crawler.drain 4 sample_generator
                              [sample_page [250; 200; 150]; sample_page [100; 50];
                               sample_page [90]])) in
  Forall (fun y => snd y <> [] /\ Forall (fun m => Crawler.is_hit m = true) (snd y)) ys /\
  increasing 0 (map fst ys).
Proof.
  apply (yielded_batches_flagged_nonempty Crawler.keep sample_generator [] 4
           [sample_page [250; 200; 150]; sample_page [100; 50]; sample_page [90]]).
  intros y st' s'. reflexivity.
Defined.

(** X9: every message of a later batch has an id strictly below the id
    of the last message of each earlier batch. *)
Theorem yielded_batches_descend {St} (consume : Z * list Message -> St -> M St)
    (g : Crawler.Gen) (st : St) (fuel : nat) (script : list Response) :
  (forall y st' s', yields (events (consume y st' s')) = []) ->
  descending (yields (events (Crawler.for_each fuel consume g st script))).
Proof.
  intros Hc.
  apply (for_each_yields_ind
           (fun g ys =>
              descending ys /\
              forall bound, cursor_le bound g ->
                Forall (fun y => Forall (fun m => id m <= bound) (snd y)) ys)
           (fun g0 => conj I (fun _ _ => Forall_nil _)));
    [|exact Hc].
  intros fuel0 g0 s0 t b g' ys Hn [IH1 IH2].
  destruct (next_yield _ _ _ _ _ _ Hn) as (_ & Hpc & _).
  destruct (next_yield_total _ _ _ _ _ _ Hn) as (_ & _ & _ & Hbound).
  split.
  - cbn [descending snd]. split; [|exact IH1].
    intros last Hlast.
    assert (Hcur : cursor_le (id last - 1) g').
    { unfold cursor_le. rewrite Hpc. intros last' Hl'. rewrite Hlast in Hl'.
      injection Hl' as <-. lia. }
    specialize (IH2 _ Hcur). revert IH2. apply Forall_impl. intros y.
    apply Forall_impl. intros m. lia.
  - intros bound Hb. destruct (Hbound bound Hb) as [Hb1 Hb2].
    constructor; [exact Hb1 | now apply IH2].
Qed.

Lemma yielded_batches_descend_witness :
  descending (yields (events (Crawler.drain 4 sample_generator
                                [sample_page [250; 200; 150]; sample_page [100; 50];
                                 sample_page [90]]))).
Proof.
  apply (yielded_batches_descend Crawler.keep sample_generator [] 4
           [sample_page [250; 200; 150]; sample_page [100; 50]; sample_page [90]]).
  intros y st' s'. reflexivity.
Defined.

Lemma searches_from room_type room_id author_id low low' e :
  low' <= low ->
  searches room_type room_id author_id low e ->
  searches room_type room_id author_id low' e.
Proof.
  unfold searches. intros Hle H Ha. destruct (H Ha) as [off [Ho He]].
  exists off. split; [lia | exact He].
Qed.

Lemma search_request_searches g s :
  Forall (searches (Crawler.room_type g) (Crawler.room_id g) (Crawler.author_id g)
            (Crawler.offset g))
    (events (Crawler.search_request g s)).
Proof.
  unfold Crawler.search_request.
  eapply Forall_impl; [|apply request_attempts_same].
  intros e He Ha. exists (Crawler.offset g). split; [lia|]. exact (He Ha).
Qed.

Lemma sweep_searches fuel g s :
  Forall (searches (Crawler.room_type g) (Crawler.room_id g) (Crawler.author_id g)
            (Crawler.offset g))
    (events (Crawler.sweep fuel g s)).
Proof.
  revert g s. induction fuel as [|fuel IH]; intros g s; [constructor|].
  cbn [Crawler.sweep].
  pose proof (search_request_searches g s) as Hreq.
  destruct (result (Crawler.search_request g s)) as [res|f] eqn:Ereq.
  2:{ rewrite (bind_fail _ _ _ _ Ereq). exact Hreq. }
  rewrite (bind_ok _ _ _ _ Ereq). cbn [events]. apply Forall_app. split; [exact Hreq|].
  generalize (rest (Crawler.search_request g s)). clear s Ereq Hreq. intros s.
  destruct (Crawler.json_search res) as [page|f];
    [rewrite bind_lift_ok | constructor].
  destruct (Crawler.extract_hits (snd page)) as [hits|f];
    [rewrite bind_lift_ok | constructor].
  destruct hits as [|first hits]; [constructor|].
  replace (Z.of_nat (List.length (first :: hits)) =? 0) with false by reflexivity.
  rewrite (bind_ok _ _ s (id first <? Crawler.oldest_message_id g)) by reflexivity.
  cbn [bind lift ret result events rest app Crawler.index nth_error].
  destruct (id first <? Crawler.oldest_message_id g); [constructor|].
  destruct (filter (Crawler.in_range g) (first :: hits)) as [|m batch'].
  { replace (Z.of_nat (List.length (@nil Message)) =? 0) with true by reflexivity.
    eapply Forall_impl; [|apply IH].
    intros e. cbn [Crawler.set_offset Crawler.room_type Crawler.room_id
                   Crawler.author_id Crawler.offset].
    apply searches_from. lia. }
  replace (Z.of_nat (List.length (m :: batch')) =? 0) with false by reflexivity.
  unfold emit, bind, ret. cbn [result events app].
  constructor; [discriminate | constructor].
Qed.

Lemma next_searches fuel g s :
  Forall (searches match Crawler.pc g with
                   | Crawler.AtStart => lower (Crawler.room_type g) ++ "s"
                   | _ => Crawler.room_type g
                   end
            (Crawler.room_id g) (Crawler.author_id g) (Crawler.offset g))
    (events (Crawler.next fuel g s)).
Proof.
  unfold Crawler.next. destruct (Crawler.pc g) as [|messages|].
  - destruct (existsb _ _); [|constructor].
    apply (sweep_searches fuel (Crawler.set_room_type g (lower (Crawler.room_type g) ++ "s")) s).
  - destruct (Crawler.index_last messages) as [last|f];
      [rewrite bind_lift_ok | constructor].
    apply (sweep_searches fuel (Crawler.set_newest_message_id g (id last - 1)) s).
  - constructor.
Qed.

(** A property of events that every resumption and every turn of the body
    keeps holds of all the events of a loop over the generator. *)
Lemma for_each_events_ind {St} (Q : Event -> Prop) (I : Crawler.Gen -> Prop)
    (consume : Z * list Message -> St -> M St) :
  (forall y st s, Forall Q (events (consume y st s))) ->
  (forall fuel g s, I g -> Forall Q (events (Crawler.next fuel g s))) ->
  (forall fuel g s y g',
      I g -> result (Crawler.next fuel g s) = Ok (Some y, g') -> I g') ->
  forall fuel g st s, I g -> Forall Q (events (Crawler.for_each fuel consume g st s)).
Proof.
  intros Hc Hn Hi fuel. induction fuel as [|fuel IH]; intros g st s Hg; [constructor|].
  cbn [Crawler.for_each].
  pose proof (Hn (S fuel) g s Hg) as Hnext.
  destruct (result (Crawler.next (S fuel) g s)) as [[[y|] g']|f] eqn:En.
  - rewrite (bind_ok _ _ _ _ En). cbn [events fst snd].
    apply Forall_app. split; [exact Hnext|].
    pose proof (Hi _ _ _ _ _ Hg En) as Hg'.
    generalize (rest (Crawler.next (S fuel) g s)). intros s1.
    pose proof (Hc y st s1) as Hbody.
    destruct (result (consume y st s1)) as [st1|f] eqn:Eb.
    + rewrite (bind_ok _ _ _ _ Eb). cbn [events].
      apply Forall_app. split; [exact Hbody | now apply IH].
    + now rewrite (bind_fail _ _ _ _ Eb).
  - rewrite (bind_ok _ _ _ _ En). cbn [events fst snd ret].
    now rewrite app_nil_r.
  - now rewrite (bind_fail _ _ _ _ En).
Qed.

(** X11: every HTTP attempt made while the generator is consumed is a
    GET on the search path of the room (the lowered room type followed by
    [s]), with the author id, [include_nsfw] true, [sort_by] timestamp, no
    data and an offset that is not negative. *)
Theorem drain_only_searches (self : Crawler.t) (room_id : Z) (room_type : string)
    (author_id oldest_message_id newest_message_id : Z)
    (fuel : nat) (script : list Response) :
  Forall (searches (lower room_type ++ "s") room_id author_id 0)
    (events (Crawler.drain fuel
               (Crawler.search_messages_by_author_id self room_id room_type author_id
                  oldest_message_id newest_message_id)
               script)).
Proof.
  unfold Crawler.drain.
  apply (for_each_events_ind
           (searches (lower room_type ++ "s") room_id author_id 0)
           (fun g => Crawler.room_id g = room_id /\ Crawler.author_id g = author_id /\
                     0 <= Crawler.offset g /\
                     match Crawler.pc g with
                     | Crawler.AtStart => lower (Crawler.room_type g) ++ "s"
                     | _ => Crawler.room_type g
                     end = lower room_type ++ "s")).
  - intros y st s. constructor.
  - intros fuel0 g s (H1 & H2 & H3 & H4).
    pose proof (next_searches fuel0 g s) as H. rewrite H1, H2, H4 in H.
    revert H. apply Forall_impl. intros e. now apply searches_from.
  - intros fuel0 g s [t b] g' (H1 & H2 & H3 & H4) Hn.
    destruct (next_yield _ _ _ _ _ _ Hn) as (_ & Hpc & (_ & S2 & S3 & _) & Hrt & Hoff).
    rewrite Hpc, Hrt, S2, S3. repeat split; try assumption. lia.
  - cbn. repeat split. lia.
Qed.

(** ** More on the orchestrator *)

Lemma get_in_range (chars : string) (i : nat) :
  (i < String.length chars)%nat -> exists c, String.get i chars = Some c.
Proof.
  revert i. induction chars as [|c chars IH]; intros i Hi; [cbn in Hi; lia|].
  destruct i as [|i]; [now exists c|]. cbn [String.get]. apply IH. cbn in Hi. lia.
Qed.

Lemma choices_spec entropy n k chars :
  chars <> "" ->
  String.length (choices entropy n k chars) = n /\
  drawn_from chars (choices entropy n k chars).
Proof.
  intros Hne. revert k. induction n as [|n IH]; intros k; [now split|].
  cbn [choices].
  assert (Hlen : (0 < String.length chars)%nat).
  { destruct chars; [congruence | cbn; lia]. }
  destruct (get_in_range chars (Nat.modulo (entropy k) (String.length chars)))
    as [c Hc].
  { apply Nat.mod_upper_bound. lia. }
  rewrite Hc. destruct (IH (S k)) as [IH1 IH2].
  split; [cbn; now rewrite IH1|].
  cbn [drawn_from]. split; [eauto | exact IH2].
Qed.

(** X12: for bounds in order and a character set that is not empty,
    [generate_random] gives a string whose length lies between the bounds,
    made of characters of the set, after one draw for the length and one
    for each character. *)
Theorem generate_random_within_bounds (entropy : nat -> nat) (k min_length max_length : nat)
    (chars : string) :
  (min_length <= max_length)%nat ->
  chars <> "" ->
  let r := generate_random entropy k min_length max_length chars in
  (min_length <= String.length (fst r) <= max_length)%nat /\
  drawn_from chars (fst r) /\
  snd r = (k + 1 + String.length (fst r))%nat.
Proof.
  intros Hle Hne. cbv zeta. unfold generate_random. cbn [fst snd].
  set (n := (min_length + Nat.modulo (entropy k) (max_length + 1 - min_length))%nat).
  destruct (choices_spec entropy n (S k) chars Hne) as [H1 H2].
  rewrite H1. split; [|split; [exact H2 | lia]].
  subst n.
  pose proof (Nat.mod_upper_bound (entropy k) (max_length + 1 - min_length)).
  lia.
Qed.

Lemma generate_random_within_bounds_witness :
  let r := generate_random (fun i => (7 * i + 3)%nat) 0 5 30 default_chars in
  (5 <= String.length (fst r) <= 30)%nat /\
  drawn_from default_chars (fst r) /\
  snd r = (0 + 1 + String.length (fst r))%nat.
Proof.
  apply (generate_random_within_bounds (fun i => (7 * i + 3)%nat) 0 5 30 default_chars).
  - lia.
  - discriminate.
Defined.

Lemma absorbed_never_raises (req : M (option Response)) (why : string) s msg :
  result (try_except_DiscordApiError
            (res <- req ;; ret true)
            (fun e => logging WARNING "" ;;; logging WARNING e ;;;
                      logging WARNING why ;;; ret false) s)
  <> Fail (Raised (DiscordApiErrorExn msg)).
Proof.
  pose proof (absorbed_outcome req why s) as H. cbv zeta in H.
  destruct (result (req s)) as [res|[[]| |]]; rewrite H; discriminate.
Qed.

(** What one message does to the locals. *)
Lemma process_message_locals entropy crawler mode m st s st' :
  result (process_message entropy crawler mode m st s) = Ok st' ->
  message st' = Some m /\
  total_results_size st' = total_results_size st /\
  failed_count st <= failed_count st' <= failed_count st + 1 /\
  newest_message_id st'
  = (if newest_message_id st =? 0 then id m else newest_message_id st) /\
  newest_message_datetime st'
  = (if newest_message_id st =? 0 then Some (timestamp m)
     else newest_message_datetime st).
Proof.
  unfold process_message.
  set (st1 := if newest_message_id (set_message st m) =? 0 then _ else _).
  assert (H1 : message st1 = Some m /\ total_results_size st1 = total_results_size st /\
                failed_count st1 = failed_count st /\
                newest_message_id st1
                = (if newest_message_id st =? 0 then id m else newest_message_id st) /\
                newest_message_datetime st1
                = (if newest_message_id st =? 0 then Some (timestamp m)
                   else newest_message_datetime st)).
  { subst st1. cbn [set_message newest_message_id].
    destruct (newest_message_id st =? 0);
      cbn [see_first message total_results_size failed_count newest_message_id
           newest_message_datetime]; auto. }
  clearbody st1. destruct H1 as (Hm & Ht & Hf & Hn & Hd).
  set (rs := replace_step entropy crawler mode (channel_id m) (id m) st1).
  assert (H2 : forall r, result (rs s) = Ok r ->
                message (snd r) = Some m /\
                total_results_size (snd r) = total_results_size st /\
                failed_count (snd r) = failed_count st /\
                newest_message_id (snd r)
                = (if newest_message_id st =? 0 then id m else newest_message_id st) /\
                newest_message_datetime (snd r)
                = (if newest_message_id st =? 0 then Some (timestamp m)
                   else newest_message_datetime st)).
  { subst rs. unfold replace_step. destruct (negb _).
    - generalize (generate_random entropy (drawn st1) 5 30 default_chars). intros gr.
      set (st2 := if String.eqb mode "random" then _ else st1).
      assert (H2 : message st2 = message st1 /\
                   total_results_size st2 = total_results_size st1 /\
                   failed_count st2 = failed_count st1 /\
                   newest_message_id st2 = newest_message_id st1 /\
                   newest_message_datetime st2 = newest_message_datetime st1).
      { subst st2. destruct (String.eqb mode "random");
          cbn [set_replace_to message total_results_size failed_count newest_message_id
               newest_message_datetime]; auto. }
      clearbody st2. destruct H2 as (A1 & A2 & A3 & A4 & A5).
      intros r.
      destruct (result (Crawler.modify_channel_message_by_message_id crawler
                          (channel_id m) (id m) (replace_to st2) s)) as [ok|f] eqn:E.
      + rewrite (bind_ok _ _ _ _ E). cbn [ret result]. intros H. injection H as <-.
        cbn [snd]. rewrite A1, A2, A3, A4, A5. auto.
      + rewrite (bind_fail _ _ _ _ E). discriminate.
    - intros r H. injection H as <-. cbn [snd]. auto. }
  clearbody rs.
  destruct (result (rs s)) as [r|f] eqn:E.
  2:{ rewrite (bind_fail _ _ _ _ E). discriminate. }
  rewrite (bind_ok _ _ _ _ E). cbn [result].
  destruct (H2 r eq_refl) as (B1 & B2 & B3 & B4 & B5).
  generalize (rest (rs s)). intros s1.
  destruct (fst r).
  - destruct (result (Crawler.delete_channel_message_by_message_id crawler
                        (channel_id m) (id m) s1)) as [deleted|f] eqn:Ed.
    + rewrite (bind_ok _ _ _ _ Ed). cbn [result].
      destruct deleted; cbn [negb ret result]; intros H; injection H as <-;
        cbn [count_failure message total_results_size failed_count newest_message_id
             newest_message_datetime];
        repeat split; try assumption; lia.
    + rewrite (bind_fail _ _ _ _ Ed). discriminate.
  - cbn [ret result]. intros H. injection H as <-.
    cbn [count_failure message total_results_size failed_count newest_message_id
         newest_message_datetime].
    repeat split; try assumption; lia.
Qed.

Lemma last_cons {A} (a d : A) (l : list A) : List.last (a :: l) d = List.last l a.
Proof.
  revert a d. induction l as [|b l IH]; intros a d; [reflexivity|].
  change (List.last (a :: b :: l) d) with (List.last (b :: l) d).
  now rewrite !(IH b).
Qed.

Lemma for_messages_locals entropy crawler mode messages st s st' :
  result (for_messages entropy crawler mode messages st s) = Ok st' ->
  total_results_size st' = total_results_size st /\
  failed_count st <= failed_count st' <= failed_count st + Z.of_nat (List.length messages) /\
  (newest_message_id st <> 0 ->
   newest_message_id st' = newest_message_id st /\
   newest_message_datetime st' = newest_message_datetime st) /\
  message st' = List.last (map Some messages) (message st).
Proof.
  revert st s. induction messages as [|m messages IH]; intros st s.
  - cbn [for_messages ret result]. intros H. injection H as <-.
    cbn [List.length Z.of_nat]. repeat split; try lia; auto.
  - cbn [for_messages].
    destruct (result (process_message entropy crawler mode m st s)) as [st1|f] eqn:E.
    2:{ rewrite (bind_fail _ _ _ _ E). discriminate. }
    rewrite (bind_ok _ _ _ _ E). cbn [result]. intros H.
    apply process_message_locals in E. destruct E as (E1 & E2 & E3 & E4 & E5).
    apply IH in H. destruct H as (H1 & H2 & H3 & H4).
    split; [congruence|]. split; [cbn [List.length]; lia|]. split.
    + intros Hn. apply Z.eqb_neq in Hn. rewrite Hn in E4, E5.
      apply Z.eqb_neq in Hn.
      destruct H3 as [H3a H3b]; [congruence|]. split; congruence.
    + cbn [map]. rewrite last_cons, H4, E1. reflexivity.
Qed.

(** X13: after the loop over a batch, [message] is the last message of
    the batch (unchanged for an empty batch); [newest_message_id] and its
    timestamp stay as they are once the id is not 0, and are otherwise
    taken from the first message, provided its id is not 0. *)
Theorem for_messages_tracks_range (entropy : nat -> nat) (crawler : Crawler.t)
    (mode : string) (messages : list Message) (st : Locals) (s : list Response)
    (st' : Locals) :
  result (for_messages entropy crawler mode messages st s) = Ok st' ->
  message st' = List.last (map Some messages) (message st) /\
  (newest_message_id st <> 0 ->
   newest_message_id st' = newest_message_id st /\
   newest_message_datetime st' = newest_message_datetime st) /\
  (newest_message_id st = 0 ->
   match messages with
   | [] => newest_message_id st' = 0
   | first :: _ =>
       id first <> 0 ->
       newest_message_id st' = id first /\
       newest_message_datetime st' = Some (timestamp first)
   end).
Proof.
  intros H. pose proof (for_messages_locals _ _ _ _ _ _ _ H) as (_ & _ & H3 & H4).
  split; [exact H4|]. split; [exact H3|].
  intros H0. destruct messages as [|first messages].
  - cbn [for_messages ret result] in H. injection H as <-. exact H0.
  - intros Hid. cbn [for_messages] in H.
    destruct (result (process_message entropy crawler mode first st s)) as [st1|f] eqn:E.
    2:{ rewrite (bind_fail _ _ _ _ E) in H. discriminate. }
    rewrite (bind_ok _ _ _ _ E) in H. cbn [result] in H.
    apply process_message_locals in E. destruct E as (_ & _ & _ & E4 & E5).
    rewrite H0 in E4, E5. cbn [Z.eqb] in E4, E5.
    apply for_messages_locals in H. destruct H as (_ & _ & H & _).
    destruct H as [Ha Hb]; [congruence|]. split; congruence.
Qed.

Lemma for_messages_tracks_range_witness :
  let st := mkLocals 0 None 2 0 None None 0 in
  let r := for_messages (fun _ => O) sample_crawler "none"
             [sample_hit 200; sample_hit 150] st [sample_ok; sample_ok] in
  exists st', result r = Ok st' /\
              message st' = Some (sample_hit 150) /\ newest_message_id st' = 200.
Proof.
  intros st r. eexists. split; [reflexivity|].
  destruct (for_messages_tracks_range (fun _ => O) sample_crawler "none"
              [sample_hit 200; sample_hit 150] st [sample_ok; sample_ok] _ eq_refl)
    as (H1 & _ & H3).
  split; [exact H1|]. apply H3; [reflexivity | discriminate].
Defined.

(** A property linking the generator and the state of the body, kept by
    every turn, holds when the loop ends. *)
Lemma for_each_state_ind {St} (I : Crawler.Gen -> St -> Prop)
    (consume : Z * list Message -> St -> M St) :
  (forall fuel g s y g' st s' st',
      I g st ->
      result (Crawler.next fuel g s) = Ok (Some y, g') ->
      result (consume y st s') = Ok st' ->
      I g' st') ->
  forall fuel g st s st',
    I g st ->
    result (Crawler.for_each fuel consume g st s) = Ok st' ->
    exists g', I g' st'.
Proof.
  intros Hstep fuel. induction fuel as [|fuel IH]; intros g st s st' Hi; [discriminate|].
  cbn [Crawler.for_each].
  destruct (result (Crawler.next (S fuel) g s)) as [[[y|] g']|f] eqn:En.
  - rewrite (bind_ok _ _ _ _ En). cbn [result fst snd].
    generalize (rest (Crawler.next (S fuel) g s)). intros s1.
    destruct (result (consume y st s1)) as [st1|f] eqn:Eb.
    + rewrite (bind_ok _ _ _ _ Eb). cbn [result]. apply IH.
      exact (Hstep _ _ _ _ _ _ _ _ Hi En Eb).
    + rewrite (bind_fail _ _ _ _ Eb). discriminate.
  - rewrite (bind_ok _ _ _ _ En). cbn [result fst snd ret].
    intros H. injection H as <-. now exists g.
  - rewrite (bind_fail _ _ _ _ En). discriminate.
Qed.

Lemma report_result st s st' : result (report st s) = Ok st' -> st' = st.
Proof.
  unfold report. destruct (total_results_size st =? 0).
  - cbn. intros H. now injection H.
  - destruct (unbound "message" (message st)) as [last|f];
      [rewrite bind_lift_ok | discriminate].
    unfold bind at 1 2 3 4. cbn [logging emit result events rest].
    destruct (unbound "newest_message_datetime" (newest_message_datetime st)) as [dt|f];
      [rewrite bind_lift_ok | discriminate].
    cbn. intros H. now injection H.
Qed.

(** A completed [main] ran its loop to the end and reported. *)
Lemma main_completed entropy token token_type room_id room_type author_id
    newest oldest mode replace_to default_sleep script st :
  result (main entropy token token_type room_id room_type author_id newest oldest
            mode replace_to default_sleep script) = Ok st ->
  let crawler :=
    Crawler.init (if negb (String.eqb token_type "User")
                  then token_type ++ " " ++ token else token) default_sleep in
  exists script',
    result (Crawler.for_each (S (List.length script)) (process_batch entropy crawler mode)
              (Crawler.search_messages_by_author_id crawler room_id room_type author_id
                 oldest newest)
              (mkLocals 0 None 0 0 None replace_to 0) script') = Ok st /\
    script' = script.
Proof.
  unfold main. cbv zeta.
  set (loop := Crawler.for_each _ _ _ _).
  unfold bind at 1. cbn [logging emit result events rest].
  unfold try_except_reraise.
  destruct (result (bind loop (fun st0 => report st0) script)) as [a|[e| |]] eqn:E;
    cbn [bind logging emit result events rest]; try (rewrite E; discriminate);
    try discriminate.
  intros H. rewrite E in H. injection H as ->.
  exists script. split; [|reflexivity].
  destruct (result (loop script)) as [st0|f] eqn:El.
  - rewrite (bind_ok _ _ _ _ El) in E. cbn [result] in E.
    apply report_result in E. now subst.
  - rewrite (bind_fail _ _ _ _ El) in E. discriminate.
Qed.

(** X14: when [main] completes, [failed_count] lies between 0 and
    [total_results_size], so the count it reports as deleted is not
    negative. *)
Theorem main_failed_count_bounded (entropy : nat -> nat) (token token_type : string)
    (room_id : Z) (room_type : string) (author_id newest_message_id oldest_message_id : Z)
    (replace_before_delete : string) (replace_to : option string) (default_sleep : Q)
    (script : list Response) (st : Locals) :
  result (main entropy token token_type room_id room_type author_id newest_message_id
            oldest_message_id replace_before_delete replace_to default_sleep script)
  = Ok st ->
  0 <= failed_count st <= total_results_size st.
Proof.
  intros H. apply main_completed in H. cbv zeta in H.
  destruct H as (script' & H & _).
  eapply (for_each_state_ind
            (fun g st => 0 <= failed_count st <= Crawler.total_results_size g /\
                         total_results_size st = Crawler.total_results_size g)) in H.
  - destruct H as [g' [H1 H2]]. lia.
  - intros fuel g s [t b] g' st0 s' st' [I1 I2] Hn Hb.
    destruct (next_yield_total _ _ _ _ _ _ Hn) as (_ & Ht & Ht' & _).
    unfold process_batch in Hb. cbn [fst snd] in Hb.
    apply for_messages_locals in Hb. destruct Hb as (B1 & B2 & _).
    cbn [set_total total_results_size failed_count] in B1, B2. lia.
  - cbn. lia.
Qed.

Lemma main_failed_count_bounded_witness :
  let forbidden := {| status_code := 403; text := "{}"; body := BodyOther |} in
  let r := main (fun _ => O) "token" "User" 9 "channel" 5 200 100 "none" None 0
             [sample_page [200; 150]; forbidden; sample_ok; sample_page []] in
  exists st, result r = Ok st /\ failed_count st = 1 /\ total_results_size st = 2 /\
             0 <= failed_count st <= total_results_size st.
Proof.
  intros forbidden r. eexists. split; [reflexivity|].
  split; [reflexivity|]. split; [reflexivity|].
  apply (main_failed_count_bounded (fun _ => O) "token" "User" 9 "channel" 5 200 100
           "none" None 0
           [sample_page [200; 150]; forbidden; sample_ok; sample_page []]).
  reflexivity.
Defined.

Lemma calls_nil_Forall m evs :
  calls m evs = [] <-> Forall (fun e => calls m [e] = []) evs.
Proof.
  induction evs as [|e evs IH]; [split; [constructor | reflexivity]|].
  change (e :: evs) with ([e] ++ evs)%list at 1. rewrite calls_app.
  split.
  - intros H. apply app_eq_nil in H. destruct H as [H1 H2].
    constructor; [exact H1 | now apply IH].
  - intros H. inversion H as [|? ? H1 H2]; subst. rewrite H1. now apply IH.
Qed.

Lemma searches_calls room_type room_id author_id low e m :
  searches room_type room_id author_id low e ->
  String.eqb "get" m = false ->
  calls m [e] = [].
Proof.
  intros Hs Hm. destruct e; try reflexivity.
  destruct (Hs eq_refl) as [off [_ He]]. injection He as ->.
  cbn [calls filter search_request_at request_of method]. now rewrite Hm.
Qed.

Lemma absorbed_calls (req : M (option Response)) (why : string) s m :
  calls m (events (req s)) = [] ->
  calls m (events (try_except_DiscordApiError
                     (res <- req ;; ret true)
                     (fun e => logging WARNING "" ;;; logging WARNING e ;;;
                               logging WARNING why ;;; ret false) s)) = [].
Proof.
  intros Hreq. pose proof (absorbed_outcome req why s) as H. cbv zeta in H.
  destruct (result (req s)) as [res|[[]| |]]; rewrite H; cbn [events];
    rewrite ?calls_app, Hreq; reflexivity.
Qed.

Lemma delete_calls self channel_id message_id s m :
  String.eqb "delete" m = false ->
  calls m (events (Crawler.delete_channel_message_by_message_id self channel_id
                     message_id s)) = [].
Proof.
  intros Hm. unfold Crawler.delete_channel_message_by_message_id.
  apply absorbed_calls. now apply request_calls.
Qed.

Lemma process_message_none_calls entropy crawler m st s :
  calls "patch" (events (process_message entropy crawler "none" m st s)) = [].
Proof.
  unfold process_message, replace_step. cbn [String.eqb Ascii.eqb Bool.eqb negb].
  rewrite bind_ret. cbn [fst snd].
  set (del := Crawler.delete_channel_message_by_message_id _ _ _).
  assert (Hd : calls "patch" (events (del s)) = [])
    by (subst del; now apply delete_calls).
  clearbody del. unfold bind. cbv zeta.
  destruct (result (del s)) as [[|]|f]; cbn [negb ret result events];
    rewrite ?app_nil_r; exact Hd.
Qed.

Lemma for_messages_none_calls entropy crawler messages st s :
  calls "patch" (events (for_messages entropy crawler "none" messages st s)) = [].
Proof.
  revert st s. induction messages as [|m messages IH]; intros st s; [reflexivity|].
  cbn [for_messages].
  pose proof (process_message_none_calls entropy crawler m st s) as Hm.
  set (pm := process_message entropy crawler "none" m st) in *. clearbody pm.
  destruct (result (pm s)) as [st1|f] eqn:E.
  - rewrite (bind_ok _ _ _ _ E). cbn [events]. rewrite calls_app, Hm, IH. reflexivity.
  - rewrite (bind_fail _ _ _ _ E). cbn [events]. exact Hm.
Qed.

Lemma report_calls st s m : calls m (events (report st s)) = [].
Proof.
  unfold report. destruct (total_results_size st =? 0); [reflexivity|].
  destruct (unbound "message" (message st)) as [last|f];
    [rewrite bind_lift_ok | reflexivity].
  unfold bind at 1 2 3 4. cbn [logging emit result events rest app].
  destruct (unbound "newest_message_datetime" (newest_message_datetime st)) as [dt|f];
    [rewrite bind_lift_ok | reflexivity].
  reflexivity.
Qed.

Lemma try_except_reraise_run {A} (m : M A) s :
  try_except_reraise m (logging INFO "" ;;; logging WARNING "Aborted!") s
  = match result (m s) with
    | Fail (Raised e) =>
        mkRun (Fail (Raised e)) (events (m s) ++ [Log INFO ""; Log WARNING "Aborted!"])
              (rest (m s))
    | _ => m s
    end.
Proof.
  unfold try_except_reraise. destruct (result (m s)) as [a|[e| |]]; reflexivity.
Qed.

(** The events of [main]: the start line, those of the loop, those of the
    report when the loop ends well, and the two lines of the handler when
    an exception comes up. *)
Lemma main_events entropy token token_type room_id room_type author_id
    newest oldest mode replace_to default_sleep script :
  let crawler :=
    Crawler.init (if negb (String.eqb token_type "User")
                  then token_type ++ " " ++ token else token) default_sleep in
  let loop :=
    Crawler.for_each (S (List.length script)) (process_batch entropy crawler mode)
      (Crawler.search_messages_by_author_id crawler room_id room_type author_id
         oldest newest)
      (mkLocals 0 None 0 0 None replace_to 0) script in
  let r := main entropy token token_type room_id room_type author_id newest oldest
             mode replace_to default_sleep script in
  exists after,
    events r = (Log INFO "Started!" :: events loop ++ after)%list /\
    (forall m, calls m after = []) /\
    (forall e, result r = Fail (Raised e) ->
               exists before, after = (before ++ [Log INFO ""; Log WARNING "Aborted!"])%list).
Proof.
  cbv zeta.
  set (loop := Crawler.for_each _ _ _ _).
  set (inner := bind loop (fun st => report st)).
  assert (Hmain :
            main entropy token token_type room_id room_type author_id newest oldest
              mode replace_to default_sleep script
            = mkRun (result (try_except_reraise inner
                               (logging INFO "" ;;; logging WARNING "Aborted!") script))
                    (Log INFO "Started!"
                       :: events (try_except_reraise inner
                                    (logging INFO "" ;;; logging WARNING "Aborted!") script))
                    (rest (try_except_reraise inner
                             (logging INFO "" ;;; logging WARNING "Aborted!") script)))
    by reflexivity.
  rewrite Hmain. clear Hmain. cbn [result events]. rewrite try_except_reraise_run.
  subst inner.
  destruct (result (loop script)) as [st0|f] eqn:El.
  - rewrite (bind_ok _ _ _ _ El). cbn [result events rest].
    pose proof (report_calls st0 (rest (loop script))) as Hrep.
    destruct (result (report st0 (rest (loop script)))) as [st1|[e| |]];
      cbn [result events].
    + exists (events (report st0 (rest (loop script)))).
      split; [reflexivity|]. split; [exact Hrep | discriminate].
    + exists (events (report st0 (rest (loop script)))
                ++ [Log INFO ""; Log WARNING "Aborted!"])%list.
      split; [now rewrite app_assoc|]. split.
      * intros m. now rewrite calls_app, Hrep.
      * intros e0 _. eauto.
    + exists (events (report st0 (rest (loop script)))).
      split; [reflexivity|]. split; [exact Hrep | discriminate].
    + exists (events (report st0 (rest (loop script)))).
      split; [reflexivity|]. split; [exact Hrep | discriminate].
  - rewrite (bind_fail _ _ _ _ El). cbn [result events rest].
    destruct f as [e| |]; cbn [result events].
    + exists [Log INFO ""; Log WARNING "Aborted!"].
      split; [reflexivity|]. split; [reflexivity|]. intros e0 _. now exists [].
    + exists []. split; [now rewrite app_nil_r|]. split; [reflexivity | discriminate].
    + exists []. split; [now rewrite app_nil_r|]. split; [reflexivity | discriminate].
Qed.

(** X15: with the replace mode [none], [main] makes no patch request,
    whatever the script. *)
Theorem none_mode_never_patches (entropy : nat -> nat) (token token_type : string)
    (room_id : Z) (room_type : string) (author_id newest_message_id oldest_message_id : Z)
    (replace_to : option string) (default_sleep : Q) (script : list Response) :
  calls "patch"
    (events (main entropy token token_type room_id room_type author_id newest_message_id
               oldest_message_id "none" replace_to default_sleep script)) = [].
Proof.
  destruct (main_events entropy token token_type room_id room_type author_id
              newest_message_id oldest_message_id "none" replace_to default_sleep script)
    as (after & Hev & Hafter & _).
  rewrite Hev.
  change (Log INFO "Started!" :: ?l)%list with ([Log INFO "Started!"] ++ l)%list.
  rewrite !calls_app, Hafter, app_nil_r. cbn [calls filter app].
  apply calls_nil_Forall.
  apply (for_each_events_ind (fun e => calls "patch" [e] = []) (fun _ => True)).
  - intros [t b] st s. apply calls_nil_Forall. unfold process_batch.
    apply for_messages_none_calls.
  - intros fuel g s _. eapply Forall_impl; [|apply next_searches].
    intros e He. now apply (searches_calls _ _ _ _ _ _ He).
  - auto.
  - exact I.
Qed.

(** X16: when [main] ends with an exception, the last two events are
    the empty info line and the warning [Aborted!]. *)
Theorem main_logs_abort (entropy : nat -> nat) (token token_type : string)
    (room_id : Z) (room_type : string) (author_id newest_message_id oldest_message_id : Z)
    (replace_before_delete : string) (replace_to : option string) (default_sleep : Q)
    (script : list Response) (e : Exn) :
  let r := main entropy token token_type room_id room_type author_id newest_message_id
             oldest_message_id replace_before_delete replace_to default_sleep script in
  result r = Fail (Raised e) ->
  exists evs, events r
              = (Log INFO "Started!" :: evs ++ [Log INFO ""; Log WARNING "Aborted!"])%list.
Proof.
  cbv zeta. intros H.
  destruct (main_events entropy token token_type room_id room_type author_id
              newest_message_id oldest_message_id replace_before_delete replace_to
              default_sleep script) as (after & Hev & _ & Habort).
  destruct (Habort e H) as [before ->]. rewrite Hev.
  eexists. now rewrite app_assoc.
Qed.

Lemma main_logs_abort_witness :
  let unauthorized := {| status_code := 401; text := "{}"; body := BodyOther |} in
  let r := main (fun _ => O) "token" "User" 9 "channel" 5 200 100 "none" None 0
             [unauthorized] in
  exists evs, events r
              = (Log INFO "Started!" :: evs ++ [Log INFO ""; Log WARNING "Aborted!"])%list.
Proof.
  intros unauthorized r.
  apply (main_logs_abort (fun _ => O) "token" "User" 9 "channel" 5 200 100 "none" None 0
           [unauthorized]
           (DiscordApiError 401 ("The Authorization header was missing or invalid."
                                   ++ newline ++ "{}"))).
  reflexivity.
Defined.

Lemma bind_failure {A B} (P : Failure -> Prop) (m : M A) (k : A -> M B) s :
  (forall f, result (m s) = Fail f -> P f) ->
  (forall a f, result (m s) = Ok a -> result (k a (rest (m s))) = Fail f -> P f) ->
  forall f, result (bind m k s) = Fail f -> P f.
Proof.
  intros Hm Hk f. destruct (result (m s)) as [a|f'] eqn:E.
  - rewrite (bind_ok _ _ _ _ E). cbn [result]. now apply Hk.
  - rewrite (bind_fail _ _ _ _ E). cbn [result]. intros H. injection H as <-. now apply Hm.
Qed.

Lemma modify_not_api_error self channel_id message_id replace_to s f :
  result (Crawler.modify_channel_message_by_message_id self channel_id message_id
            replace_to s) = Fail f ->
  not_api_error f.
Proof.
  unfold Crawler.modify_channel_message_by_message_id. intros H msg ->.
  revert H. apply absorbed_never_raises.
Qed.

Lemma delete_not_api_error self channel_id message_id s f :
  result (Crawler.delete_channel_message_by_message_id self channel_id message_id s)
  = Fail f ->
  not_api_error f.
Proof.
  unfold Crawler.delete_channel_message_by_message_id. intros H msg ->.
  revert H. apply absorbed_never_raises.
Qed.

Lemma process_message_not_api_error entropy crawler mode m st s f :
  result (process_message entropy crawler mode m st s) = Fail f -> not_api_error f.
Proof.
  unfold process_message.
  generalize (if newest_message_id (set_message st m) =? 0
              then see_first (set_message st m) m else set_message st m).
  intros st1. revert f. apply bind_failure.
  - unfold replace_step. destruct (negb _); [|discriminate].
    generalize (if String.eqb mode "random"
                then let r := generate_random entropy (drawn st1) 5 30 default_chars in
                     set_replace_to st1 (fst r) (snd r)
                else st1).
    intros st2. apply bind_failure.
    + intros f. apply modify_not_api_error.
    + discriminate.
  - intros r f _. destruct (fst r); [|discriminate].
    revert f. apply bind_failure.
    + intros f. apply delete_not_api_error.
    + intros deleted f _. destruct (negb deleted); discriminate.
Qed.

Lemma for_messages_not_api_error entropy crawler mode messages st s f :
  result (for_messages entropy crawler mode messages st s) = Fail f -> not_api_error f.
Proof.
  revert st s f. induction messages as [|m messages IH]; intros st s f; [discriminate|].
  cbn [for_messages]. revert f. apply bind_failure.
  - intros f. apply process_message_not_api_error.
  - intros st1 f _. apply IH.
Qed.

(** X17: the loop over the messages of a batch never ends with a
    [DiscordApiError]: those of the replace and delete calls are counted,
    not raised. *)
Theorem mutation_errors_do_not_abort (entropy : nat -> nat) (crawler : Crawler.t)
    (mode : string) (messages : list Message) (st : Locals) (s : list Response)
    (msg : string) :
  result (for_messages entropy crawler mode messages st s)
  <> Fail (Raised (DiscordApiErrorExn msg)).
Proof.
  intros H. exact (for_messages_not_api_error _ _ _ _ _ _ _ H msg eq_refl).
Qed.

Lemma main_run entropy token token_type room_id room_type author_id
    newest oldest mode replace_to default_sleep script :
  let crawler :=
    Crawler.init (if negb (String.eqb token_type "User")
                  then token_type ++ " " ++ token else token) default_sleep in
  let inner :=
    bind (Crawler.for_each (S (List.length script)) (process_batch entropy crawler mode)
            (Crawler.search_messages_by_author_id crawler room_id room_type author_id
               oldest newest)
            (mkLocals 0 None 0 0 None replace_to 0))
         (fun st => report st) in
  let t := try_except_reraise inner (logging INFO "" ;;; logging WARNING "Aborted!")
             script in
  main entropy token token_type room_id room_type author_id newest oldest
    mode replace_to default_sleep script
  = mkRun (result t) (Log INFO "Started!" :: events t) (rest t).
Proof. reflexivity. Qed.

Lemma main_of_failed_loop entropy token token_type room_id room_type author_id
    newest oldest mode replace_to default_sleep script e evs rst :
  let crawler :=
    Crawler.init (if negb (String.eqb token_type "User")
                  then token_type ++ " " ++ token else token) default_sleep in
  Crawler.for_each (S (List.length script)) (process_batch entropy crawler mode)
    (Crawler.search_messages_by_author_id crawler room_id room_type author_id
       oldest newest)
    (mkLocals 0 None 0 0 None replace_to 0) script
  = mkRun (Fail (Raised e)) evs rst ->
  main entropy token token_type room_id room_type author_id newest oldest
    mode replace_to default_sleep script
  = mkRun (Fail (Raised e))
          (Log INFO "Started!" :: evs ++ [Log INFO ""; Log WARNING "Aborted!"])
          rst.
Proof.
  cbv zeta. rewrite main_run. cbv zeta.
  generalize (Crawler.for_each (S (List.length script))
                (process_batch entropy
                   (Crawler.init (if negb (String.eqb token_type "User")
                                  then token_type ++ " " ++ token else token)
                      default_sleep) mode)
                (Crawler.search_messages_by_author_id
                   (Crawler.init (if negb (String.eqb token_type "User")
                                  then token_type ++ " " ++ token else token)
                      default_sleep)
                   room_id room_type author_id oldest newest)
                (mkLocals 0 None 0 0 None replace_to 0)).
  intros loop Hloop.
  rewrite try_except_reraise_run.
  rewrite (bind_fail _ _ script _ (f_equal result Hloop)).
  rewrite Hloop. reflexivity.
Qed.

Lemma for_each_next_fails {St} fuel (consume : Z * list Message -> St -> M St) g st s f :
  result (Crawler.next (S fuel) g s) = Fail f ->
  Crawler.for_each (S fuel) consume g st s
  = mkRun (Fail f) (events (Crawler.next (S fuel) g s)) (rest (Crawler.next (S fuel) g s)).
Proof.
  intros H. cbn [Crawler.for_each]. now rewrite (bind_fail _ _ _ _ H).
Qed.

Lemma next_at_start fuel g s :
  Crawler.pc g = Crawler.AtStart ->
  Crawler.next fuel g s
  = if existsb (String.eqb (lower (Crawler.room_type g))) ["channel"; "guild"]
    then Crawler.sweep fuel (Crawler.set_room_type g (lower (Crawler.room_type g) ++ "s")) s
    else mkRun (Fail (Raised (AssertionError
                         ("Invalid room_type argument. room_type should be either "
                            ++ dquote ++ "channel" ++ dquote ++ " or "
                            ++ dquote ++ "guild" ++ dquote ++ "."))))
               [] s.
Proof.
  intros Hpc. unfold Crawler.next. rewrite Hpc. now destruct (existsb _ _).
Qed.

Lemma sweep_request_none fuel g s :
  result (Crawler.search_request g s) = Ok None ->
  Crawler.sweep (S fuel) g s
  = mkRun (Fail (Raised AttributeError))
          (events (Crawler.search_request g s)) (rest (Crawler.search_request g s)).
Proof.
  intros H. cbn [Crawler.sweep]. rewrite (bind_ok _ _ _ _ H).
  cbn [Crawler.json_search]. rewrite bind_lift_fail.
  cbn [result events rest]. now rewrite app_nil_r.
Qed.

(** X18: a room type that is neither [channel] nor [guild], whatever the
    case of its letters, makes [main] raise the [AssertionError] and log the
    abort without any request: the script is left untouched. *)
Theorem invalid_room_type_aborts (entropy : nat -> nat) (token token_type : string)
    (room_id : Z) (room_type : string) (author_id newest_message_id oldest_message_id : Z)
    (replace_before_delete : string) (replace_to : option string) (default_sleep : Q)
    (script : list Response) :
  existsb (String.eqb (lower room_type)) ["channel"; "guild"] = false ->
  main entropy token token_type room_id room_type author_id newest_message_id
    oldest_message_id replace_before_delete replace_to default_sleep script
  = mkRun (Fail (Raised (AssertionError
                           ("Invalid room_type argument. room_type should be either "
                              ++ dquote ++ "channel" ++ dquote ++ " or "
                              ++ dquote ++ "guild" ++ dquote ++ "."))))
          [Log INFO "Started!"; Log INFO ""; Log WARNING "Aborted!"]
          script.
Proof.
  intros Hroom.
  apply (main_of_failed_loop entropy token token_type room_id room_type author_id
           newest_message_id oldest_message_id replace_before_delete replace_to
           default_sleep script _ [] script).
  cbv zeta.
  set (g := Crawler.search_messages_by_author_id _ _ _ _ _ _).
  assert (Hnext : forall n, Crawler.next n g script
                            = mkRun (Fail (Raised (AssertionError
                                 ("Invalid room_type argument. room_type should be either "
                                    ++ dquote ++ "channel" ++ dquote ++ " or "
                                    ++ dquote ++ "guild" ++ dquote ++ "."))))
                                 [] script).
  { intros n. rewrite (next_at_start n g script eq_refl).
    replace (Crawler.room_type g) with room_type by reflexivity.
    now rewrite Hroom. }
  clearbody g.
  rewrite (for_each_next_fails _ _ g _ script _ (f_equal result (Hnext _))).
  now rewrite Hnext.
Qed.

Lemma invalid_room_type_aborts_witness :
  events (main (fun _ => O) "token" "User" 9 "dm" 5 200 100 "none" None 0 [sample_page [150]])
  = [Log INFO "Started!"; Log INFO ""; Log WARNING "Aborted!"].
Proof.
  rewrite (invalid_room_type_aborts (fun _ => O) "token" "User" 9 "dm" 5 200 100 "none"
             None 0 [sample_page [150]] eq_refl).
  reflexivity.
Defined.

Lemma request_five_limits self method path params data
    (a b c d e : Z) (ta tb tc td te : string) (tail : list Response) :
  let r := Crawler._request self method path params data
             ([ rate_limited a ta; rate_limited b tb; rate_limited c tc;
                rate_limited d td; rate_limited e te ] ++ tail)%list in
  result r = Ok None /\ rest r = tail /\ attempts_made (events r) = 5%nat.
Proof. repeat split. Qed.

Lemma main_search_returns_none entropy token token_type room_id room_type author_id
    newest oldest mode replace_to default_sleep script :
  let crawler :=
    Crawler.init (if negb (String.eqb token_type "User")
                  then token_type ++ " " ++ token else token) default_sleep in
  let g1 :=
    Crawler.set_room_type
      (Crawler.search_messages_by_author_id crawler room_id room_type author_id
         oldest newest)
      (lower room_type ++ "s") in
  existsb (String.eqb (lower room_type)) ["channel"; "guild"] = true ->
  result (Crawler.search_request g1 script) = Ok None ->
  main entropy token token_type room_id room_type author_id newest oldest
    mode replace_to default_sleep script
  = mkRun (Fail (Raised AttributeError))
          (Log INFO "Started!" :: events (Crawler.search_request g1 script)
             ++ [Log INFO ""; Log WARNING "Aborted!"])
          (rest (Crawler.search_request g1 script)).
Proof.
  cbv zeta. intros Hroom Hres.
  apply main_of_failed_loop. cbv zeta.
  set (g := Crawler.search_messages_by_author_id _ _ _ _ _ _) in *.
  assert (Hnext : forall n,
             Crawler.next (S n) g script
             = mkRun (Fail (Raised AttributeError))
                 (events (Crawler.search_request
                            (Crawler.set_room_type g (lower room_type ++ "s")) script))
                 (rest (Crawler.search_request
                          (Crawler.set_room_type g (lower room_type ++ "s")) script))).
  { intros n. rewrite (next_at_start (S n) g script eq_refl).
    replace (Crawler.room_type g) with room_type by reflexivity.
    rewrite Hroom. now apply sweep_request_none. }
  clearbody g.
  rewrite (for_each_next_fails _ _ g _ script _ (f_equal result (Hnext _))).
  now rewrite Hnext.
Qed.

(** X19: when the first search is answered with five 429 responses
    whose back-off, like [default_sleep], [time.sleep] accepts, [_request]
    returns [None], reading [res.json()] raises [AttributeError], and [main]
    aborts with it after five attempts and no yield. *)
Theorem search_ceiling_aborts (entropy : nat -> nat) (token token_type : string)
    (room_id : Z) (room_type : string) (author_id newest_message_id oldest_message_id : Z)
    (replace_before_delete : string) (replace_to : option string) (default_sleep : Q)
    (a b c d e : Z) (ta tb tc td te : string) (tail : list Response) :
  sleepable default_sleep ->
  Forall backs_off [a; b; c; d; e] ->
  existsb (String.eqb (lower room_type)) ["channel"; "guild"] = true ->
  let r := main entropy token token_type room_id room_type author_id newest_message_id
             oldest_message_id replace_before_delete replace_to default_sleep
             ([ rate_limited a ta; rate_limited b tb; rate_limited c tc;
                rate_limited d td; rate_limited e te ] ++ tail)%list in
  result r = Fail (Raised AttributeError) /\
  attempts_made (events r) = 5%nat /\
  yields (events r) = [] /\
  rest r = tail.
Proof.
  intros _ _ Hroom. cbv zeta.
  pose proof (main_search_returns_none entropy token token_type room_id room_type
                author_id newest_message_id oldest_message_id replace_before_delete
                replace_to default_sleep
                ([rate_limited a ta; rate_limited b tb; rate_limited c tc;
                  rate_limited d td; rate_limited e te] ++ tail)%list) as Hmain.
  cbv zeta in Hmain.
  set (g1 := Crawler.set_room_type _ _) in Hmain.
  assert (Hreq : result (Crawler.search_request g1
                           ([rate_limited a ta; rate_limited b tb; rate_limited c tc;
                             rate_limited d td; rate_limited e te] ++ tail)%list) = Ok None
                 /\ rest (Crawler.search_request g1
                           ([rate_limited a ta; rate_limited b tb; rate_limited c tc;
                             rate_limited d td; rate_limited e te] ++ tail)%list) = tail
                 /\ attempts_made
                      (events (Crawler.search_request g1
                           ([rate_limited a ta; rate_limited b tb; rate_limited c tc;
                             rate_limited d td; rate_limited e te] ++ tail)%list)) = 5%nat).
  { clearbody g1. unfold Crawler.search_request. apply request_five_limits. }
  pose proof (search_request_yields g1
                ([rate_limited a ta; rate_limited b tb; rate_limited c tc;
                  rate_limited d td; rate_limited e te] ++ tail)%list) as Hy.
  clearbody g1. destruct Hreq as (Hres & Hrest & Hfive).
  rewrite (Hmain Hroom Hres). cbn [result events rest]. rewrite Hrest.
  revert Hfive Hy. generalize (events (Crawler.search_request g1
                ([rate_limited a ta; rate_limited b tb; rate_limited c tc;
                  rate_limited d td; rate_limited e te] ++ tail)%list)).
  intros evs Hfive Hy.
  split; [reflexivity|]. split; [|split; [|reflexivity]].
  - unfold attempts_made in *. cbn [filter is_attempt]. rewrite filter_app.
    cbn [filter is_attempt]. rewrite app_nil_r. exact Hfive.
  - cbn [yields]. rewrite yields_app, Hy. reflexivity.
Qed.

Lemma search_ceiling_aborts_witness :
  result (main (fun _ => O) "token" "User" 9 "guild" 5 200 100 "none" None 0
            [ rate_limited 1 ""; rate_limited 1 ""; rate_limited 1 "";
              rate_limited 1 ""; rate_limited 1 ""; sample_page [150] ])
  = Fail (Raised AttributeError).
Proof.
  apply (search_ceiling_aborts (fun _ => O) "token" "User" 9 "guild" 5 200 100 "none"
           None 0 1 1 1 1 1 "" "" "" "" "" [sample_page [150]]).
  - unfold sleepable, Qle. cbn. lia.
  - repeat apply Forall_cons; try apply Forall_nil;
      unfold backs_off, sleepable, Qle; cbn; lia.
  - reflexivity.
Defined.
